(** * ShopEase sales API: the four Express routers and the application

    A shallow embedding of [routes/product.js], [routes/countries.js],
    [routes/itemTypes.js], [routes/sales_channel.js] and of the application
    file that mounts them, followed by the properties of the CRUD contract.

    Every route handler is an [async] function of the shape
    [try { rows <- await db.query(sql, params); respond } catch { next(error) }].
    Handlers are written in a small state-and-completion monad [js] whose
    state holds the database behind the pool, the response object [res],
    the console, and the log of the calls made to [db.query]. *)

From Stdlib Require Import ZArith String List DecimalString DecimalZ.
From stdpp Require Import base option list gmap strings sorting.

(** ** Values exchanged with the client and the database *)

(** A scalar as it travels in a request body, a query parameter or a result
    row.  A property that is missing from a JavaScript object reads as
    [undefined], which the driver binds as SQL NULL: both are [VNull].
    A number is [VNum n] when it is the integer [n], and otherwise
    [VFrac text] with the text JavaScript prints for it ([9.99] is
    [VFrac "9.99"]), which is also what the driver sends for it. *)
Inductive value :=
  | VNull
  | VNum (n : Z)
  | VFrac (text : string)
  | VStr (s : string).

#[global] Instance value_eq_dec : EqDecision value.
Proof. solve_decision. Defined.

(** A result row: the object [{ column: value, ... }] the driver builds. *)
Definition row : Type := list (string * value).

(** The value of an [Error]; only its identity matters. *)
Definition error : Type := string.

(** ** The SQL the handlers send

    One constructor per statement shape found in the route files.  The
    positional parameters [$1 .. $n] are passed next to the statement, as in
    [db.query(text, values)]; every writing statement ends in [RETURNING *]. *)
Inductive statement :=
  | SELECT_ORDER_BY (t c : string)
      (* SELECT * FROM t ORDER BY c *)
  | SELECT_WHERE (t c : string)
      (* SELECT * FROM t WHERE c = $1 *)
  | INSERT_INTO (t : string) (cs : list string)
      (* INSERT INTO t (cs) VALUES ($1, .., $n) RETURNING * *)
  | UPDATE_SET_WHERE (t : string) (cs : list string) (c : string)
      (* UPDATE t SET cs1 = $1, .., csn = $n WHERE c = $n+1 RETURNING * *)
  | DELETE_WHERE (t c : string).
      (* DELETE FROM t WHERE c = $1 RETURNING * *)

(** What [await db.query(..)] gives: a result whose [rows] the handler
    reads, or a rejection that the handler's [catch] receives. *)
Inductive query_result :=
  | Rows (rows : list row)
  | Fault (e : error).

(** [const db = require('../db')]: the connection pool shared by the
    routers.  [DB] is whatever sits behind it. *)
Class Pool := {
  DB : Type;
  query : statement → list value → DB → query_result * DB
}.

(** ** Requests and responses *)

Inductive method := GET | POST | PUT | DELETE.

#[global] Instance method_eq_dec : EqDecision method.
Proof. solve_decision. Defined.

(** [req] as the routers receive it: one of the four methods they register;
    the path split at its slashes, each segment decoded and spelled as the
    mount points and the clients of the API spell it; [params] filled in by
    the router from a [/:id] pattern; [body] the object that
    [bodyParser.json()] produced.  What Express does before a router or
    besides it is not part of this model: a body that does not parse and a
    segment that does not decode go to the error middleware without reaching
    a handler, and Express also serves HEAD from the GET routes and matches
    paths in any letter case and with a trailing slash. *)
Record request := Request {
  verb : method;
  url : list string;
  params : list (string * string);
  body : gmap string value
}.

(** What a handler hands to [res.json], and the page of Express's final
    handler. *)
Inductive payload :=
  | JsonRows (rows : list row)          (* res.json(rows) *)
  | JsonRow (r : option row)            (* res.json(rows[0]) *)
  | JsonMessage (message : string)      (* res.json({ message: .. }) *)
  | Html (page : string).

(** [res]: [status] sets [statusCode]; [json] sends a body with the status
    current at that moment.  [sent] keeps every body sent, oldest first. *)
Record response := Response {
  statusCode : Z;
  sent : list (Z * payload)
}.

(** The log of the calls made to [db.query], with what each gave. *)
Definition call : Type := statement * list value * query_result.

Record world `{Pool} := World {
  store : DB;
  console : list error;
  calls : list call;
  res : response
}.

(** ** The handler monad *)

(** How a block of statements ends: normally, by [return], or by a thrown
    error. *)
Inductive completion (A : Type) :=
  | Normal (a : A)
  | Return
  | Throw (e : error).
Arguments Normal {A} a.
Arguments Return {A}.
Arguments Throw {A} e.

Definition js `{Pool} (A : Type) : Type := world → completion A * world.

Section Monad.
Context `{Pool}.

#[global] Instance js_ret : MRet js := λ A a w, (Normal a, w).

#[global] Instance js_bind : MBind js := λ A B f m w,
  match m w with
  | (Normal a, w') => f a w'
  | (Return, w') => (Return, w')
  | (Throw e, w') => (Throw e, w')
  end.

Definition skip : js unit := mret ().

(** [return e;] *)
Definition return_ (e : js unit) : js unit :=
  λ w, match e w with
       | (Normal _, w') => (Return, w')
       | other => other
       end.

(** [try { block } catch (error) { handler }] *)
Definition try_catch (block : js unit) (handler : error → js unit) : js unit :=
  λ w, match block w with
       | (Throw e, w') => handler e w'
       | other => other
       end.

(** [await db.query(sql, values)], destructured as [{ rows }]. *)
Definition db_query (sql : statement) (values : list value) : js (list row) :=
  λ w, let '(r, s) := query sql values (store w) in
       let w' := World _ s (console w) (calls w ++ [(sql, values, r)]) (res w) in
       match r with
       | Rows rows => (Normal rows, w')
       | Fault e => (Throw e, w')
       end.

(** [res.status(code)] *)
Definition res_status (code : Z) : js unit :=
  λ w, (Normal (), World _ (store w) (console w) (calls w)
                     (Response code (sent (res w)))).

(** [res.json(p)] *)
Definition res_json (p : payload) : js unit :=
  λ w, (Normal (), World _ (store w) (console w) (calls w)
                     (Response (statusCode (res w))
                               (sent (res w) ++ [(statusCode (res w), p)]))).

(** [console.error(err.stack)] *)
Definition console_error (e : error) : js unit :=
  λ w, (Normal (), World _ (store w) (console w ++ [e]) (calls w) (res w)).

(** [req.params.name] *)
Definition param (req : request) (name : string) : value :=
  match List.find (λ p, String.eqb (fst p) name) (params req) with
  | Some (_, s) => VStr s
  | None => VNull
  end.

(** [const { name } = req.body] *)
Definition field (req : request) (name : string) : value :=
  default VNull (body req !! name).

(** [(req, res, next) => { .. }]; [res] lives in the world. *)
Definition handler : Type := request → (error → js unit) → js unit.

(** The two path patterns of the route files: ['/'] and ['/:id']. *)
Inductive pattern := Root | Id.

(** [router.METHOD(pattern, handler)] *)
Record route := Route {
  route_verb : method;
  route_pattern : pattern;
  route_handler : handler
}.

(** [express.Router()] with its routes in registration order. *)
Definition Router : Type := list route.
End Monad.

(** ** routes/product.js *)
Module Product.
Section Routes.
Context `{Pool}.

Definition get_all : handler := λ req next,
  try_catch
    (rows ← db_query (SELECT_ORDER_BY "product" "product_id") [];
     res_json (JsonRows rows))
    (λ error, next error).

Definition get_by_id : handler := λ req next,
  let productId := param req "id" in
  try_catch
    (rows ← db_query (SELECT_WHERE "product" "product_id") [productId];
     (if decide (length rows = 0)
      then return_ (res_status 404;; res_json (JsonMessage "Product not found"))
      else skip);;
     res_json (JsonRow (rows !! 0)))
    (λ error, next error).

Definition post : handler := λ req next,
  let product_name := field req "product_name" in
  try_catch
    (rows ← db_query (INSERT_INTO "product" ["product_name"]) [product_name];
     res_status 201;; res_json (JsonRow (rows !! 0)))
    (λ error, next error).

Definition put_by_id : handler := λ req next,
  let productId := param req "id" in
  let product_name := field req "product_name" in
  let price := field req "price" in
  try_catch
    (rows ← db_query
              (UPDATE_SET_WHERE "product" ["product_name"; "price"] "product_id")
              [product_name; price; productId];
     (if decide (length rows = 0)
      then return_ (res_status 404;; res_json (JsonMessage "Product not found"))
      else skip);;
     res_json (JsonRow (rows !! 0)))
    (λ error, next error).

Definition delete_by_id : handler := λ req next,
  let productId := param req "id" in
  try_catch
    (rows ← db_query (DELETE_WHERE "product" "product_id") [productId];
     (if decide (length rows = 0)
      then return_ (res_status 404;; res_json (JsonMessage "Product not found"))
      else skip);;
     res_json (JsonMessage "Product deleted successfully"))
    (λ error, next error).

Definition router : Router :=
  [ Route GET Root get_all;
    Route GET Id get_by_id;
    Route POST Root post;
    Route PUT Id put_by_id;
    Route DELETE Id delete_by_id ].
End Routes.
End Product.

(** ** routes/countries.js

    The file documents a list route and announces it with the comment
    [// GET all countries], but registers none. *)
Module Countries.
Section Routes.
Context `{Pool}.

Definition get_by_id : handler := λ req next,
  let countryId := param req "id" in
  try_catch
    (rows ← db_query (SELECT_WHERE "country" "country_id") [countryId];
     (if decide (length rows = 0)
      then return_ (res_status 404;; res_json (JsonMessage "Country not found"))
      else skip);;
     res_json (JsonRow (rows !! 0)))
    (λ error, next error).

Definition post : handler := λ req next,
  let country_name := field req "country_name" in
  let region_id := field req "region_id" in
  try_catch
    (rows ← db_query (INSERT_INTO "country" ["country_name"; "region_id"])
              [country_name; region_id];
     res_status 201;; res_json (JsonRow (rows !! 0)))
    (λ error, next error).

Definition put_by_id : handler := λ req next,
  let countryId := param req "id" in
  let country_name := field req "country_name" in
  let region_id := field req "region_id" in
  try_catch
    (rows ← db_query
              (UPDATE_SET_WHERE "country" ["country_name"; "region_id"] "country_id")
              [country_name; region_id; countryId];
     (if decide (length rows = 0)
      then return_ (res_status 404;; res_json (JsonMessage "Country not found"))
      else skip);;
     res_json (JsonRow (rows !! 0)))
    (λ error, next error).

Definition delete_by_id : handler := λ req next,
  let countryId := param req "id" in
  try_catch
    (rows ← db_query (DELETE_WHERE "country" "country_id") [countryId];
     (if decide (length rows = 0)
      then return_ (res_status 404;; res_json (JsonMessage "Country not found"))
      else skip);;
     res_json (JsonMessage "Country deleted successfully"))
    (λ error, next error).

Definition router : Router :=
  [ Route GET Id get_by_id;
    Route POST Root post;
    Route PUT Id put_by_id;
    Route DELETE Id delete_by_id ].
End Routes.
End Countries.

(** ** routes/itemTypes.js *)
Module ItemTypes.
Section Routes.
Context `{Pool}.

Definition get_all : handler := λ req next,
  try_catch
    (rows ← db_query (SELECT_ORDER_BY "item_type" "item_type_id") [];
     res_json (JsonRows rows))
    (λ error, next error).

Definition get_by_id : handler := λ req next,
  let itemTypeId := param req "id" in
  try_catch
    (rows ← db_query (SELECT_WHERE "item_type" "item_type_id") [itemTypeId];
     (if decide (length rows = 0)
      then return_ (res_status 404;; res_json (JsonMessage "Item type not found"))
      else skip);;
     res_json (JsonRow (rows !! 0)))
    (λ error, next error).

Definition post : handler := λ req next,
  let item_type_name := field req "item_type_name" in
  try_catch
    (rows ← db_query (INSERT_INTO "item_type" ["item_type_name"]) [item_type_name];
     res_status 201;; res_json (JsonRow (rows !! 0)))
    (λ error, next error).

Definition put_by_id : handler := λ req next,
  let itemTypeId := param req "id" in
  let item_type_name := field req "item_type_name" in
  try_catch
    (rows ← db_query
              (UPDATE_SET_WHERE "item_type" ["item_type_name"] "item_type_id")
              [item_type_name; itemTypeId];
     (if decide (length rows = 0)
      then return_ (res_status 404;; res_json (JsonMessage "Item type not found"))
      else skip);;
     res_json (JsonRow (rows !! 0)))
    (λ error, next error).

Definition delete_by_id : handler := λ req next,
  let itemTypeId := param req "id" in
  try_catch
    (rows ← db_query (DELETE_WHERE "item_type" "item_type_id") [itemTypeId];
     (if decide (length rows = 0)
      then return_ (res_status 404;; res_json (JsonMessage "Item type not found"))
      else skip);;
     res_json (JsonMessage "Item type deleted successfully"))
    (λ error, next error).

Definition router : Router :=
  [ Route GET Root get_all;
    Route GET Id get_by_id;
    Route POST Root post;
    Route PUT Id put_by_id;
    Route DELETE Id delete_by_id ].
End Routes.
End ItemTypes.

(** ** routes/sales_channel.js *)
Module SalesChannel.
Section Routes.
Context `{Pool}.

Definition get_all : handler := λ req next,
  try_catch
    (rows ← db_query (SELECT_ORDER_BY "sales_channel" "channel_id") [];
     res_json (JsonRows rows))
    (λ error, next error).

Definition get_by_id : handler := λ req next,
  let channelId := param req "id" in
  try_catch
    (rows ← db_query (SELECT_WHERE "sales_channel" "channel_id") [channelId];
     (if decide (length rows = 0)
      then return_ (res_status 404;; res_json (JsonMessage "Sales channel not found"))
      else skip);;
     res_json (JsonRow (rows !! 0)))
    (λ error, next error).

Definition post : handler := λ req next,
  let channel_name := field req "channel_name" in
  try_catch
    (rows ← db_query (INSERT_INTO "sales_channel" ["channel_name"]) [channel_name];
     res_status 201;; res_json (JsonRow (rows !! 0)))
    (λ error, next error).

Definition put_by_id : handler := λ req next,
  let channelId := param req "id" in
  let channel_name := field req "channel_name" in
  try_catch
    (rows ← db_query
              (UPDATE_SET_WHERE "sales_channel" ["channel_name"] "channel_id")
              [channel_name; channelId];
     (if decide (length rows = 0)
      then return_ (res_status 404;; res_json (JsonMessage "Sales channel not found"))
      else skip);;
     res_json (JsonRow (rows !! 0)))
    (λ error, next error).

Definition delete_by_id : handler := λ req next,
  let channelId := param req "id" in
  try_catch
    (rows ← db_query (DELETE_WHERE "sales_channel" "channel_id") [channelId];
     (if decide (length rows = 0)
      then return_ (res_status 404;; res_json (JsonMessage "Sales channel not found"))
      else skip);;
     res_json (JsonMessage "Sales channel deleted successfully"))
    (λ error, next error).

Definition router : Router :=
  [ Route GET Root get_all;
    Route GET Id get_by_id;
    Route POST Root post;
    Route PUT Id put_by_id;
    Route DELETE Id delete_by_id ].
End Routes.
End SalesChannel.

(** ** The application file *)
Section App.
Context `{Pool}.

(** [res.send(page)] *)
Definition res_send (page : string) : js unit := res_json (Html page).

(** [app.use(prefix, ..)] matches a path that starts with [prefix] and hands
    on what follows it; here the segments must be spelled as in [prefix]. *)
Fixpoint strip_prefix (prefix path : list string) : option (list string) :=
  match prefix, path with
  | [], rest => Some rest
  | p :: prefix', s :: path' =>
      if String.eqb p s then strip_prefix prefix' path' else None
  | _ :: _, [] => None
  end.

(** A route pattern against the rest of the path; ['/:id'] binds one
    segment, taken as the request holds it. *)
Definition match_pattern (p : pattern) (rest : list string)
  : option (list (string * string)) :=
  match p, rest with
  | Root, [] => Some []
  | Id, [id] => Some [("id", id)]
  | _, _ => None
  end.

(** A router runs the first route whose method and pattern match, with
    [req.params] set from the pattern; with none it passes the request on. *)
Fixpoint lookup_route (r : Router) (m : method) (rest : list string)
  : option (handler * list (string * string)) :=
  match r with
  | [] => None
  | Route m' p h :: r' =>
      match (if decide (m' = m) then match_pattern p rest else None) with
      | Some ps => Some (h, ps)
      | None => lookup_route r' m rest
      end
  end.

(** [const productsRouter = require('./routes/product')] and its siblings. *)
Definition productsRouter : Router := Product.router.
Definition countriesRouter : Router := Countries.router.
Definition itemTypesRouter : Router := ItemTypes.router.
Definition salesChannelsRouter : Router := SalesChannel.router.

(** The routers in the order of their [app.use] lines. *)
Definition mounts : list (list string * Router) :=
  [ (["api"; "products"], productsRouter);
    (["api"; "countries"], countriesRouter);
    (["api"; "item-types"], itemTypesRouter);
    (["api"; "sales-channels"], salesChannelsRouter) ].

(** The stack hands the request to the first mounted router that has a
    route for it. *)

Fixpoint dispatch (stack : list (list string * Router)) (req : request)
  : option (handler * request) :=
  match stack with
  | [] => None
  | (prefix, r) :: stack' =>
      match strip_prefix prefix (url req) ≫= lookup_route r (verb req) with
      | Some (h, ps) => Some (h, Request (verb req) (url req) ps (body req))
      | None => dispatch stack' req
      end
  end.

(** [app.use((err, req, res, next) => { .. })] *)
Definition error_middleware : error → js unit := λ err,
  console_error err;;
  res_status 500;; res_json (JsonMessage "Internal Server Error").

Definition method_name (m : method) : string :=
  match m with GET => "GET" | POST => "POST" | PUT => "PUT" | DELETE => "DELETE" end.

(** Express's own last resort when no middleware answered: a 404 page. *)
Definition finalhandler (req : request) : js unit :=
  res_status 404;;
  res_send ("Cannot " +:+ method_name (verb req) +:+ " /" +:+ String.concat "/" (url req)).

(** The documentation pages under [/api-docs]; their content is not part of
    the contract. *)
Definition swagger_ui : js unit := res_send "Swagger UI".

Definition app (req : request) : js unit :=
  match strip_prefix ["api-docs"] (url req) with
  | Some _ => swagger_ui
  | None =>
      match dispatch mounts req with
      | Some (h, req') => h req' error_middleware
      | None => finalhandler req
      end
  end.

(** One request against the database [s]: a fresh [res] (status 200, nothing
    sent), an empty console and call log; the result is the world when the
    handler's promise has settled. *)
Definition serve (req : request) (s : DB) : world :=
  snd (app req (World _ s [] [] (Response 200 []))).

(** What the client receives, if exactly one body was sent. *)
Definition reply (w : world) : option (Z * payload) :=
  match sent (res w) with
  | [r] => Some r
  | _ => None
  end.
End App.

(** ** The relational engine behind the pool

    Neither [db.js] nor the schema is among the sources; this engine follows
    sections 3, 4.1 and 7 of the specification. *)
Module Relational.

Inductive coltype := TInteger | TNumeric | TText.

(** The value filed under a name in a list of named things. *)
Definition assoc {A} (k : string) (l : list (string * A)) : option A :=
  snd <$> List.find (λ p, String.eqb (fst p) k) l.

(** Modelled from the spec: the four tables of section 3 (the schema is not
    among the sources), each with its generated integer identifier and its
    other columns; the column names are those of the SQL in the route files. *)
Definition schema : list (string * (string * list (string * coltype))) :=
  [ ("product", ("product_id", [("product_name", TText); ("price", TNumeric)]));
    ("country", ("country_id", [("country_name", TText); ("region_id", TInteger)]));
    ("item_type", ("item_type_id", [("item_type_name", TText)]));
    ("sales_channel", ("channel_id", [("channel_name", TText)])) ].

(** Modelled from the spec: a table as the rows found by identifier, the
    next identifier to generate, and the constraints the engine enforces on
    the other columns of a row (not-null and the like), which the
    specification leaves to the schema. *)
Record table := Table {
  rows : gmap Z (list (string * value));
  next_id : Z;
  constraint : list (string * value) → bool
}.

#[global] Instance table_inhabited : Inhabited table :=
  populate (Table ∅ 1 (λ _, true)).

(** Modelled from the spec: the decimal text of an integer, as an
    identifier appears in a path (section 6, [/api/products/{id}]). *)
Definition print_int (z : Z) : string := NilZero.string_of_int (Z.to_int z).

(** Modelled from the spec: the integer a decimal text denotes, if any: an
    identifier is "expected integer" (section 4.1) and reaches the engine as
    the text of the path. *)
Definition parse_int (s : string) : option Z := Z.of_int <$> NilZero.int_of_string s.

(** Modelled from the spec: a parameter is read at the type of the column it
    meets; text that is not a number where a number is expected, or that is
    not an integer where an integer is expected, is a malformed query. *)
Definition coerce (ty : coltype) (v : value) : option value :=
  match v, ty with
  | VNull, _ => Some VNull
  | VStr s, TText => Some (VStr s)
  | VNum n, TText => Some (VStr (print_int n))
  | VFrac t, TText => Some (VStr t)
  | VNum n, (TInteger | TNumeric) => Some (VNum n)
  | VFrac t, TNumeric => Some (VFrac t)
  | VFrac t, TInteger => VNum <$> parse_int t
  | VStr s, (TInteger | TNumeric) => VNum <$> parse_int s
  end.

(** Modelled from the spec: the values of [INSERT (cs) VALUES (..)] or of
    [SET cs = ..], column by column, each read at the type of its column; a
    column the table does not have, or a count that does not match, is a
    malformed query. *)
Fixpoint assign (cols : list (string * coltype)) (cs : list string) (vs : list value)
  : option (list (string * value)) :=
  match cs, vs with
  | [], [] => Some []
  | c :: cs', v :: vs' =>
      ty ← assoc c cols;
      v' ← coerce ty v;
      rest ← assign cols cs' vs';
      Some ((c, v') :: rest)
  | _, _ => None
  end.

(** Modelled from the spec: the identifier a [WHERE key = $1] parameter
    denotes; NULL equals no identifier. *)
Definition key_of (v : value) : option (option Z) :=
  match coerce TInteger v with
  | Some (VNum k) => Some (Some k)
  | Some VNull => Some None
  | _ => None
  end.

(** Modelled from the spec: a stored row as it is returned, the identifier
    first (section 8: [{"product_id":1,"product_name":"Widget","price":null}]). *)
Definition render (key : string) (k : Z) (fields : list (string * value)) : row :=
  (key, VNum k) :: fields.

(** The order of [ORDER BY key]. *)
Definition by_key (a b : Z * list (string * value)) : Prop := (a.1 ≤ b.1)%Z.

#[global] Instance by_key_dec a b : Decision (by_key a b).
Proof. unfold by_key. apply _. Defined.

(** The two faults of section 7 that the engine itself raises. *)
Definition malformed : error := "malformed query".
Definition violation : error := "constraint violation".

(** Modelled from the spec: the engine's answer to each statement (the
    database is reached through [db.js], which is not among the sources).
    Section 3: an insert returns the persisted row with its generated
    identifier, a lookup or a scan reads by identifier, an update or a
    delete by identifier returns the row or signals absence with no row.
    Section 7: each statement is atomic, and a malformed query or a
    constraint violation is a fault.  Rows are reached through the key
    column only, as in section 3 and in every statement of the route files;
    a [WHERE] or [ORDER BY] on another column is outside this fragment and
    is answered as malformed. *)
Definition execute (sql : statement) (vs : list value) (db : gmap string table)
  : query_result * gmap string table :=
  match sql with
  | SELECT_ORDER_BY t c =>
      match assoc t schema, vs with
      | Some (key, _), [] =>
          if String.eqb c key
          then (Rows (map (λ kf, render key kf.1 kf.2)
                          (merge_sort by_key (map_to_list (rows (db !!! t))))), db)
          else (Fault malformed, db)
      | _, _ => (Fault malformed, db)
      end
  | SELECT_WHERE t c =>
      match assoc t schema, vs with
      | Some (key, _), [v] =>
          match (if String.eqb c key then key_of v else None) with
          | Some (Some k) =>
              match rows (db !!! t) !! k with
              | Some fields => (Rows [render key k fields], db)
              | None => (Rows [], db)
              end
          | Some None => (Rows [], db)
          | None => (Fault malformed, db)
          end
      | _, _ => (Fault malformed, db)
      end
  | INSERT_INTO t cs =>
      match assoc t schema with
      | Some (key, cols) =>
          match assign cols cs vs with
          | Some given =>
              let T := db !!! t in
              let k := next_id T in
              let fields := map (λ c, (c.1, default VNull (assoc c.1 given))) cols in
              if constraint T fields && bool_decide (rows T !! k = None)
              then (Rows [render key k fields],
                    <[t := Table (<[k := fields]> (rows T)) (k + 1) (constraint T)]> db)
              else (Fault violation, db)
          | None => (Fault malformed, db)
          end
      | None => (Fault malformed, db)
      end
  | UPDATE_SET_WHERE t cs c =>
      match assoc t schema with
      | Some (key, cols) =>
          match assign cols cs (take (length cs) vs),
                (if String.eqb c key then drop (length cs) vs else []) with
          | Some given, [v] =>
              match key_of v with
              | Some (Some k) =>
                  let T := db !!! t in
                  match rows T !! k with
                  | Some old =>
                      let fields :=
                        map (λ c, (c.1, default (default VNull (assoc c.1 old))
                                                (assoc c.1 given))) cols in
                      if constraint T fields
                      then (Rows [render key k fields],
                            <[t := Table (<[k := fields]> (rows T)) (next_id T)
                                         (constraint T)]> db)
                      else (Fault violation, db)
                  | None => (Rows [], db)
                  end
              | Some None => (Rows [], db)
              | None => (Fault malformed, db)
              end
          | _, _ => (Fault malformed, db)
          end
      | None => (Fault malformed, db)
      end
  | DELETE_WHERE t c =>
      match assoc t schema, vs with
      | Some (key, _), [v] =>
          match (if String.eqb c key then key_of v else None) with
          | Some (Some k) =>
              let T := db !!! t in
              match rows T !! k with
              | Some fields =>
                  (Rows [render key k fields],
                   <[t := Table (delete k (rows T)) (next_id T) (constraint T)]> db)
              | None => (Rows [], db)
              end
          | Some None => (Rows [], db)
          | None => (Fault malformed, db)
          end
      | _, _ => (Fault malformed, db)
      end
  end.

(** The pool over this engine. *)
Definition pool : Pool := {| DB := gmap string table; query := execute |}.

End Relational.

(** ** The four resources, as the properties below speak of them *)

Inductive entity := product | country | item_type | sales_channel.

(** The path a router is mounted at. *)
Definition mount (E : entity) : list string :=
  match E with
  | product => ["api"; "products"]
  | country => ["api"; "countries"]
  | item_type => ["api"; "item-types"]
  | sales_channel => ["api"; "sales-channels"]
  end.

Definition table_of (E : entity) : string :=
  match E with
  | product => "product"
  | country => "country"
  | item_type => "item_type"
  | sales_channel => "sales_channel"
  end.

(** The primary-key column. *)
Definition pk (E : entity) : string :=
  match E with
  | product => "product_id"
  | country => "country_id"
  | item_type => "item_type_id"
  | sales_channel => "channel_id"
  end.

(** The columns a [POST] names in its [INSERT]. *)
Definition inserted (E : entity) : list string :=
  match E with
  | product => ["product_name"]
  | country => ["country_name"; "region_id"]
  | item_type => ["item_type_name"]
  | sales_channel => ["channel_name"]
  end.

(** The columns a [PUT] names in its [SET]. *)
Definition updated (E : entity) : list string :=
  match E with
  | product => ["product_name"; "price"]
  | country => ["country_name"; "region_id"]
  | item_type => ["item_type_name"]
  | sales_channel => ["channel_name"]
  end.

Definition not_found (E : entity) : string :=
  match E with
  | product => "Product not found"
  | country => "Country not found"
  | item_type => "Item type not found"
  | sales_channel => "Sales channel not found"
  end.

Definition deleted (E : entity) : string :=
  match E with
  | product => "Product deleted successfully"
  | country => "Country deleted successfully"
  | item_type => "Item type deleted successfully"
  | sales_channel => "Sales channel deleted successfully"
  end.

Definition router_of `{Pool} (E : entity) : Router :=
  match E with
  | product => productsRouter
  | country => countriesRouter
  | item_type => itemTypesRouter
  | sales_channel => salesChannelsRouter
  end.

(** The value of a body property, [undefined] read as NULL. *)
Definition prop (b : gmap string value) (name : string) : value :=
  default VNull (b !! name).

(** The world in which a handler's promise settles after its one call to
    [db.query] gave [r] and left the database as [s]: [ok rows] is what the
    [try] block makes of [res]; a fault goes through [next] to the error
    middleware. *)
Definition settled `{Pool} (sql : statement) (vs : list value)
    (out : query_result * DB) (ok : list row → response) : world :=
  match out.1 with
  | Rows rs => World _ out.2 [] [(sql, vs, out.1)] (ok rs)
  | Fault e => World _ out.2 [e] [(sql, vs, out.1)]
                 (Response 500 [(500%Z, JsonMessage "Internal Server Error")])
  end.

(** [res] after [if (rows.length === 0) 404 else res.json(found rows)]. *)
Definition found_or_404 (E : entity) (found : list row → payload) (rs : list row)
  : response :=
  match rs with
  | [] => Response 404 [(404%Z, JsonMessage (not_found E))]
  | _ :: _ => Response 200 [(200%Z, found rs)]
  end.

(** A JSON body, as opposed to a page. *)
Definition is_json (p : payload) : Prop :=
  match p with Html _ => False | _ => True end.

(** A statement that selects its rows by [E]'s primary key. *)
Definition by_identifier (E : entity) (sql : statement) : Prop :=
  match sql with
  | SELECT_WHERE t c | DELETE_WHERE t c | UPDATE_SET_WHERE t _ c =>
      t = table_of E ∧ c = pk E
  | _ => False
  end.

(** The five operations of a resource and the request that asks for each. *)
Inductive operation :=
  | ListAll
  | GetById (id : string)
  | Create
  | Update (id : string)
  | Delete (id : string).

Definition request_of (E : entity) (op : operation)
    (ps : list (string * string)) (b : gmap string value) : request :=
  match op with
  | ListAll => Request GET (mount E) ps b
  | GetById id => Request GET (mount E ++ [id]) ps b
  | Create => Request POST (mount E) ps b
  | Update id => Request PUT (mount E ++ [id]) ps b
  | Delete id => Request DELETE (mount E ++ [id]) ps b
  end.

(** The operations for which a route is registered. *)
Definition registered (E : entity) (op : operation) : Prop :=
  match E, op with
  | country, ListAll => False
  | _, _ => True
  end.

(** The statement and the parameters an operation sends. *)
Definition issued (E : entity) (op : operation) (b : gmap string value)
  : statement * list value :=
  match op with
  | ListAll => (SELECT_ORDER_BY (table_of E) (pk E), [])
  | GetById id => (SELECT_WHERE (table_of E) (pk E), [VStr id])
  | Create => (INSERT_INTO (table_of E) (inserted E), map (prop b) (inserted E))
  | Update id => (UPDATE_SET_WHERE (table_of E) (updated E) (pk E),
                  map (prop b) (updated E) ++ [VStr id])
  | Delete id => (DELETE_WHERE (table_of E) (pk E), [VStr id])
  end.

(** What an operation makes of [res] from the rows it got. *)
Definition answered (E : entity) (op : operation) : list row → response :=
  match op with
  | ListAll => λ rs, Response 200 [(200%Z, JsonRows rs)]
  | GetById _ | Update _ => found_or_404 E (λ rs, JsonRow (rs !! 0))
  | Create => λ rs, Response 201 [(201%Z, JsonRow (rs !! 0))]
  | Delete _ => found_or_404 E (λ _, JsonMessage (deleted E))
  end.

(** The columns of [E]'s table besides its key, as the engine knows them. *)
Definition columns (E : entity) : list (string * Relational.coltype) :=
  match E with
  | product => [("product_name", Relational.TText); ("price", Relational.TNumeric)]
  | country => [("country_name", Relational.TText); ("region_id", Relational.TInteger)]
  | item_type => [("item_type_name", Relational.TText)]
  | sales_channel => [("channel_name", Relational.TText)]
  end.

(** A body value that already has the type of its column, so that the
    engine stores it as it is. *)
Definition typed (b : gmap string value) (c : string * Relational.coltype) : Prop :=
  Relational.coerce c.2 (prop b c.1) = Some (prop b c.1).

(** The fields of a body, column by column; a missing one is NULL. *)
Definition submitted (E : entity) (b : gmap string value) : list (string * value) :=
  map (λ c, (c.1, prop b c.1)) (columns E).

(** The fields a [POST] stores: those its [INSERT] names, NULL in the others. *)
Definition persisted (E : entity) (b : gmap string value) : list (string * value) :=
  map (λ c, (c.1, if bool_decide (c.1 ∈ inserted E) then prop b c.1 else VNull))
      (columns E).

(** ** A sample database

    Section 3 calls the names and the region reference required; here they
    are not-null constraints. *)
Definition not_null (cs : list string) (fields : list (string * value)) : bool :=
  forallb (λ c, match Relational.assoc c fields with
                | Some VNull | None => false
                | Some _ => true
                end) cs.

Definition catalog : gmap string Relational.table :=
  {[ "product" :=
       Relational.Table
         {[ 2%Z := [("product_name", VStr "Gadget"); ("price", VNum 12)];
            1%Z := [("product_name", VStr "Widget"); ("price", VNull)];
            5%Z := [("product_name", VStr "Doohickey"); ("price", VNum 3)] ]}
         6 (not_null ["product_name"]);
     "country" :=
       Relational.Table
         {[ 1%Z := [("country_name", VStr "Kenya"); ("region_id", VNum 4)] ]}
         2 (not_null ["country_name"; "region_id"]);
     "item_type" :=
       Relational.Table
         {[ 3%Z := [("item_type_name", VStr "Snacks")] ]}
         4 (not_null ["item_type_name"]) ]}.

(** A request as a client sends it: no route parameters yet. *)
Definition incoming (m : method) (path : list string) (b : list (string * value))
  : request :=
  Request m path [] (list_to_map b).

(** ** Further vocabulary: what a statement is and names *)

(** The HTTP method whose handlers send a statement of this shape. *)
Definition verb_of (sql : statement) : method :=
  match sql with
  | SELECT_ORDER_BY _ _ | SELECT_WHERE _ _ => GET
  | INSERT_INTO _ _ => POST
  | UPDATE_SET_WHERE _ _ _ => PUT
  | DELETE_WHERE _ _ => DELETE
  end.

(** The table a statement names. *)
Definition table_named (sql : statement) : string :=
  match sql with
  | SELECT_ORDER_BY t _ | SELECT_WHERE t _ | INSERT_INTO t _
  | UPDATE_SET_WHERE t _ _ | DELETE_WHERE t _ => t
  end.

(** The column a statement orders or selects by, if it has one. *)
Definition key_named (sql : statement) : option string :=
  match sql with
  | SELECT_ORDER_BY _ c | SELECT_WHERE _ c | UPDATE_SET_WHERE _ _ c
  | DELETE_WHERE _ c => Some c
  | INSERT_INTO _ _ => None
  end.

(** The body properties an operation reads. *)
Definition reads (E : entity) (op : operation) : list string :=
  match op with
  | Create => inserted E
  | Update _ => updated E
  | ListAll | GetById _ | Delete _ => []
  end.

(** A database that answers every statement with no row. *)
Definition mute : Pool := {| DB := unit; query := λ _ _ s, (Rows [], s) |}.

(** A database that answers every statement with the same two rows, the
    larger identifier first. *)
Definition two_rows : list row :=
  [ [("product_id", VNum 9); ("product_name", VStr "Zither"); ("price", VNull)];
    [("product_id", VNum 4); ("product_name", VStr "Anvil"); ("price", VNum 2)] ].

Definition echo : Pool := {| DB := unit; query := λ _ _ s, (Rows two_rows, s) |}.

(** * Properties of the handlers, whatever database sits behind the pool *)
Section Routing.
Context `{Pool}.

Lemma dispatch_mount E m rest ps b :
  dispatch mounts (Request m (mount E ++ rest) ps b) =
  (λ hp, (hp.1, Request m (mount E ++ rest) hp.2 b)) <$> lookup_route (router_of E) m rest.
Proof. destruct E, m, rest as [|id [|x rest]]; reflexivity. Qed.

Lemma dispatch_url req h req' :
  dispatch mounts req = Some (h, req') → ∃ E rest, url req = mount E ++ rest.
Proof.
  destruct req as [m u ps b]. cbn [dispatch mounts url verb body].
  intros Hd.
  destruct u as [|a [|c rest]]; try discriminate.
  - cbn [strip_prefix mbind option_bind] in Hd. repeat case_match; simplify_eq.
  - cbn [strip_prefix] in Hd.
    destruct (String.eqb_spec "api" a);
      [subst a|cbn [mbind option_bind] in Hd; done].
    destruct (String.eqb_spec "products" c); [subst; by exists product, rest|].
    destruct (String.eqb_spec "countries" c); [subst; by exists country, rest|].
    destruct (String.eqb_spec "item-types" c); [subst; by exists item_type, rest|].
    destruct (String.eqb_spec "sales-channels" c);
      [subst; by exists sales_channel, rest|].
    done.
Qed.

(** Every request that reaches a handler asks for a registered operation. *)
Lemma routed_inv req :
  is_Some (dispatch mounts req) →
  ∃ E op, registered E op ∧ req = request_of E op (params req) (body req).
Proof.
  intros [[h req'] Hd].
  destruct (dispatch_url _ _ _ Hd) as (E & rest & Hu).
  destruct req as [m u ps b]; cbn [url verb params body] in *; subst u.
  rewrite dispatch_mount in Hd. exists E.
  destruct rest as [|id [|x rest]]; destruct E, m;
    first
      [ exists ListAll; split; [exact I|reflexivity]
      | exists Create; split; [exact I|reflexivity]
      | exists (GetById id); split; [exact I|reflexivity]
      | exists (Update id); split; [exact I|reflexivity]
      | exists (Delete id); split; [exact I|reflexivity]
      | exfalso;
        match type of Hd with
        | ?l = Some _ =>
            assert (l = None) as Hn by reflexivity; rewrite Hn in Hd; discriminate Hd
        end ].
Qed.

Lemma routed_request E op ps b :
  registered E op → is_Some (dispatch mounts (request_of E op ps b)).
Proof.
  destruct E, op; intros HE; try (exfalso; exact HE); eexists; reflexivity.
Qed.

(** The shape all handlers share: the call either gives rows to the rest of
    the [try] block or throws into the [catch]. *)
Lemma try_catch_query sql vs (k : list row → js unit) (h : error → js unit) w :
  try_catch (db_query sql vs ≫= k) h w =
  let out := query sql vs (store w) in
  let w' := World _ out.2 (console w) (calls w ++ [(sql, vs, out.1)]) (res w) in
  match out.1 with
  | Rows rs => try_catch (k rs) h w'
  | Fault e => h e w'
  end.
Proof.
  unfold try_catch, mbind, js_bind, db_query.
  by destruct (query sql vs (store w)) as [[rs|e] s'].
Qed.

Lemma app_routed req h req' :
  strip_prefix ["api-docs"] (url req) = None →
  dispatch mounts req = Some (h, req') →
  app req = h req' error_middleware.
Proof. intros Hdocs Hd. unfold app. by rewrite Hdocs, Hd. Qed.

(** Each handler makes one call to [db.query] and settles as [answered] says. *)
Lemma serve_operation E op ps b s :
  registered E op →
  serve (request_of E op ps b) s =
  settled (issued E op b).1 (issued E op b).2
          (query (issued E op b).1 (issued E op b).2 s) (answered E op).
Proof.
  intros HE. destruct E, op; try (exfalso; exact HE).
  all: unfold serve; erewrite app_routed; [|reflexivity|reflexivity].
  all: unfold Product.get_all, Product.get_by_id, Product.post, Product.put_by_id,
         Product.delete_by_id, Countries.get_by_id, Countries.post,
         Countries.put_by_id, Countries.delete_by_id, ItemTypes.get_all,
         ItemTypes.get_by_id, ItemTypes.post, ItemTypes.put_by_id,
         ItemTypes.delete_by_id, SalesChannel.get_all, SalesChannel.get_by_id,
         SalesChannel.post, SalesChannel.put_by_id, SalesChannel.delete_by_id.
  all: rewrite try_catch_query.
  all: unfold settled, field, param, prop;
       cbn [issued fst snd store params body request_of List.find String.eqb
            Ascii.eqb Bool.eqb map inserted updated table_of pk app].
  all: destruct (query _ _ _) as [[[|r rs]|e] s']; reflexivity.
Qed.

Lemma serve_unrouted req s :
  dispatch mounts req = None →
  calls (serve req s) = [] ∧ store (serve req s) = s ∧ console (serve req s) = [] ∧
  ∃ code page, sent (res (serve req s)) = [(code, Html page)].
Proof.
  intros Hd. unfold serve, app. rewrite Hd.
  destruct (strip_prefix _ _); cbn; eauto 10.
Qed.

Lemma settled_rows sql vs rs s ok :
  settled sql vs (Rows rs, s) ok = World _ s [] [(sql, vs, Rows rs)] (ok rs).
Proof. reflexivity. Qed.

Lemma settled_fault sql vs e s ok :
  settled sql vs (Fault e, s) ok
  = World _ s [e] [(sql, vs, Fault e)]
      (Response 500 [(500%Z, JsonMessage "Internal Server Error")]).
Proof. reflexivity. Qed.

End Routing.

(** Read the request in the goal as the one asking for [op], and replace
    its run by what [serve_operation] says. *)
Ltac run_operation E op :=
  match goal with
  | |- context [serve ?req ?s] =>
      change req with (request_of E op (params req) (body req));
      cbn [params body];
      rewrite (serve_operation E op) by (destruct E; first [exact I|done]);
      cbn [issued fst snd]
  end.

(** Split on what the call gave: no row, some rows, or a fault. *)
Ltac settle :=
  destruct (query _ _ _) as [[[|? ?]|?] ?];
  rewrite ?settled_rows, ?settled_fault;
  cbn [calls reply res sent store console answered found_or_404 fst snd app].

Section Handlers.
Context `{Pool}.

(** C2 fails on the code: the countries router has the get, create, update
    and delete routes of the products router but no list route.
    [GET /api/countries] reaches no handler, no statement is sent, and
    Express's final handler answers with its 404 page instead of a JSON
    array, where [GET /api/products] does reach a handler. *)
Theorem countries_list_not_routed ps b s id :
  let w := serve (Request GET ["api"; "countries"] ps b) s in
  dispatch mounts (Request GET ["api"; "countries"] ps b) = None ∧
  sent (res w) = [(404%Z, Html "Cannot GET /api/countries")] ∧
  calls w = [] ∧ store w = s ∧
  is_Some (dispatch mounts (Request GET ["api"; "products"] ps b)) ∧
  is_Some (dispatch mounts (Request GET ["api"; "countries"; id] ps b)) ∧
  is_Some (dispatch mounts (Request POST ["api"; "countries"] ps b)) ∧
  is_Some (dispatch mounts (Request PUT ["api"; "countries"; id] ps b)) ∧
  is_Some (dispatch mounts (Request DELETE ["api"; "countries"; id] ps b)).
Proof.
  repeat split; first [reflexivity | eexists; reflexivity].
Qed.

(** The other three routers do answer the list request, from a
    [SELECT .. ORDER BY] on their table. *)
Lemma list_routed_elsewhere E ps b s :
  E ≠ country →
  (calls (serve (Request GET (mount E) ps b) s)).*1
  = [(SELECT_ORDER_BY (table_of E) (pk E), [])].
Proof. intros HE. run_operation E ListAll. by settle. Qed.

(** C4: GET, PUT and DELETE on [/api/E/{id}] send one statement that selects
    by [E]'s primary key with the path identifier as its last parameter;
    when it matches no row the reply is 404 with [{ message }] carrying
    [E]'s not-found text, and when it returns a row the reply is 200 (when
    it faults, 500). *)
Theorem not_found_when_no_row E m id ps b s :
  m ≠ POST →
  let w := serve (Request m (mount E ++ [id]) ps b) s in
  ∃ sql vs r, calls w = [(sql, vs ++ [VStr id], r)] ∧ by_identifier E sql ∧
    r = (query sql (vs ++ [VStr id]) s).1 ∧
    match r with
    | Rows [] => reply w = Some (404%Z, JsonMessage (not_found E))
    | Rows (_ :: _) => ∃ p, reply w = Some (200%Z, p) ∧ is_json p
    | Fault _ => reply w = Some (500%Z, JsonMessage "Internal Server Error")
    end.
Proof.
  intros Hm w; subst w. destruct m; [|by destruct Hm| |].
  - run_operation E (GetById id).
    exists (SELECT_WHERE (table_of E) (pk E)), []. cbn [app].
    settle; eexists; repeat split; eauto; by eexists.
  - run_operation E (Update id).
    exists (UPDATE_SET_WHERE (table_of E) (updated E) (pk E)),
           (map (prop b) (updated E)).
    settle; eexists; repeat split; eauto; by eexists.
  - run_operation E (Delete id).
    exists (DELETE_WHERE (table_of E) (pk E)), []. cbn [app].
    settle; eexists; repeat split; eauto; by eexists.
Qed.

(** C7: whenever the database call of a request faults, the error reaches
    the error middleware: it is logged, and the client gets status 500 with
    the one message ['Internal Server Error'], whatever the fault was. *)
Theorem fault_gives_generic_500 req s sql vs e :
  (sql, vs, Fault e) ∈ calls (serve req s) →
  reply (serve req s) = Some (500%Z, JsonMessage "Internal Server Error") ∧
  console (serve req s) = [e].
Proof.
  intros Hin. destruct (dispatch mounts req) as [hr|] eqn:Hd.
  - destruct (routed_inv req) as (E & op & HE & Hreq); [by eexists|].
    rewrite Hreq in Hin |- *. rewrite serve_operation in Hin |- * by done.
    destruct (query _ _ _) as [[rs|e'] s'];
      rewrite ?settled_rows, ?settled_fault in Hin |- *;
      cbn [calls] in Hin; apply list_elem_of_singleton in Hin;
      simplify_eq.
    by split.
  - destruct (serve_unrouted req s Hd) as (Hc & _). rewrite Hc in Hin.
    by apply not_elem_of_nil in Hin.
Qed.

(** C8: get-by-id sends the path identifier, as the string it is, as the one
    parameter of [SELECT * FROM table WHERE key = $1]; requests with the
    same identifier send the same parameter whatever else differs. *)
Theorem get_by_id_passes_identifier E id ps b s :
  (calls (serve (Request GET (mount E ++ [id]) ps b) s)).*1
  = [(SELECT_WHERE (table_of E) (pk E), [VStr id])] ∧
  ∀ ps' b' s',
    (calls (serve (Request GET (mount E ++ [id]) ps' b') s')).*1.*2
    = (calls (serve (Request GET (mount E ++ [id]) ps b) s)).*1.*2.
Proof.
  assert (∀ ps b s, (calls (serve (Request GET (mount E ++ [id]) ps b) s)).*1
                    = [(SELECT_WHERE (table_of E) (pk E), [VStr id])]) as Hc.
  { clear. intros ps b s. run_operation E (GetById id). by settle. }
  split; [apply Hc|]. intros ps' b' s'. by rewrite !Hc.
Qed.

(** C10: a request that reaches a handler gets exactly one response: a JSON
    body with status 200 or 201, or status 404 with [{ message }], or, after
    a faulting database call handed to the error middleware, status 500 with
    the fixed message. *)
Theorem one_response_per_request req s :
  is_Some (dispatch mounts req) →
  let w := serve req s in
  ∃ code p, sent (res w) = [(code, p)] ∧
    ( ((code = 200%Z ∨ code = 201%Z) ∧ is_json p ∧ console w = [])
    ∨ (code = 404%Z ∧ (∃ m, p = JsonMessage m) ∧ console w = [])
    ∨ (code = 500%Z ∧ p = JsonMessage "Internal Server Error" ∧
       ∃ sql vs e, calls w = [(sql, vs, Fault e)] ∧ console w = [e]) ).
Proof.
  intros Hd w; subst w.
  destruct (routed_inv req Hd) as (E & op & HE & ->).
  rewrite serve_operation by done.
  destruct (query _ _ _) as [[rs|e] s']; rewrite ?settled_rows, ?settled_fault;
    cbn [sent res console calls].
  - destruct op, rs as [|r rs]; cbn [answered found_or_404 sent];
      do 2 eexists; (split; [reflexivity|]);
      first [ left; by repeat split; auto
            | right; left; by repeat split; eauto ].
  - do 2 eexists; split; [reflexivity|]. right; right. eauto 10.
Qed.
End Handlers.

(** * Properties over the relational engine *)
Ltac run_engine := change (@query Relational.pool) with Relational.execute.

Section Engine.
Import Relational.
#[local] Existing Instance pool.
Implicit Types db : gmap string table.

Lemma schema_of E : assoc (table_of E) schema = Some (pk E, columns E).
Proof. by destruct E. Qed.

Lemma parse_print k : parse_int (print_int k) = Some k.
Proof.
  unfold parse_int, print_int. rewrite NilZero.isi.
  - cbn. by rewrite DecimalZ.of_to.
  - destruct k; [done| |done]. cbn. intros [= Hp].
    by apply DecimalPos.Unsigned.to_uint_nonnil in Hp.
  - destruct k; [done|done|]. cbn. intros [= Hp].
    by apply DecimalPos.Unsigned.to_uint_nonnil in Hp.
Qed.

Lemma key_of_path id : key_of (VStr id) = Some <$> parse_int id.
Proof. unfold key_of, coerce. by destruct (parse_int id). Qed.

Lemma execute_select_where E id db :
  execute (SELECT_WHERE (table_of E) (pk E)) [VStr id] db =
  match parse_int id with
  | Some k => match rows (db !!! table_of E) !! k with
              | Some fields => (Rows [render (pk E) k fields], db)
              | None => (Rows [], db)
              end
  | None => (Fault malformed, db)
  end.
Proof.
  unfold execute. rewrite schema_of, String.eqb_refl, key_of_path.
  by destruct (parse_int id).
Qed.

Lemma execute_delete_where E id db :
  execute (DELETE_WHERE (table_of E) (pk E)) [VStr id] db =
  match parse_int id with
  | Some k =>
      let T := db !!! table_of E in
      match rows T !! k with
      | Some fields =>
          (Rows [render (pk E) k fields],
           <[table_of E := Table (delete k (rows T)) (next_id T) (constraint T)]> db)
      | None => (Rows [], db)
      end
  | None => (Fault malformed, db)
  end.
Proof.
  unfold execute. rewrite schema_of, String.eqb_refl, key_of_path.
  by destruct (parse_int id).
Qed.

Lemma execute_select_order_by E db :
  execute (SELECT_ORDER_BY (table_of E) (pk E)) [] db =
  (Rows (map (λ kf, render (pk E) kf.1 kf.2)
             (merge_sort by_key (map_to_list (rows (db !!! table_of E))))), db).
Proof. unfold execute. by rewrite schema_of, String.eqb_refl. Qed.

Lemma execute_update E id k b db :
  let T := db !!! table_of E in
  parse_int id = Some k →
  Forall (typed b) (columns E) →
  execute (UPDATE_SET_WHERE (table_of E) (updated E) (pk E))
          (map (prop b) (updated E) ++ [VStr id]) db =
  match rows T !! k with
  | Some _ =>
      if constraint T (submitted E b)
      then (Rows [render (pk E) k (submitted E b)],
            <[table_of E := Table (<[k := submitted E b]> (rows T)) (next_id T)
                                  (constraint T)]> db)
      else (Fault violation, db)
  | None => (Rows [], db)
  end.
Proof.
  intros T Hk Hty. subst T. unfold execute.
  rewrite schema_of, String.eqb_refl.
  assert (assign (columns E) (updated E)
            (take (length (updated E)) (map (prop b) (updated E) ++ [VStr id]))
          = Some (submitted E b)) as ->.
  { unfold typed in Hty.
    destruct E; cbn [columns] in Hty; rewrite ?Forall_cons in Hty;
      cbn -[prop coerce] in *; destruct_and!;
      repeat match goal with Hc : coerce _ _ = Some _ |- _ => rewrite Hc; clear Hc end;
      done. }
  assert (drop (length (updated E)) (map (prop b) (updated E) ++ [VStr id])
          = [VStr id]) as -> by (by destruct E).
  rewrite key_of_path, Hk. cbn [fmap option_fmap option_map].
  destruct (rows _ !! k) as [old|]; [|done].
  assert (map (λ c, (c.1, default (default VNull (assoc c.1 old))
                                  (assoc c.1 (submitted E b)))) (columns E)
          = submitted E b) as -> by (by destruct E).
  done.
Qed.

Lemma drop_snoc_singleton {A} n (vs : list A) x v :
  drop n (vs ++ [x]) = [v] → v = x.
Proof.
  revert n. induction vs as [|a vs IH]; intros [|n] Hd; simpl in Hd.
  - by simplify_eq.
  - by rewrite drop_nil in Hd.
  - injection Hd as _ Hd. by destruct vs.
  - by apply IH in Hd.
Qed.

(** Whatever the parameters, an update by identifier leaves the database as
    it was or replaces the one row the identifier denotes. *)
Lemma execute_update_frame E id vs db :
  let T := db !!! table_of E in
  let out := execute (UPDATE_SET_WHERE (table_of E) (updated E) (pk E))
                     (vs ++ [VStr id]) db in
  out.2 = db ∨
  ∃ k fields, parse_int id = Some k ∧
    out.2 = <[table_of E := Table (<[k := fields]> (rows T)) (next_id T)
                                  (constraint T)]> db.
Proof.
  intros T out. subst T out. unfold execute.
  rewrite schema_of, String.eqb_refl.
  destruct (assign _ _ _); [|by left].
  destruct (drop _ _) as [|v [|??]] eqn:Hdrop; try by left.
  destruct (key_of v) as [[k|]|] eqn:Hv; try by left.
  destruct (rows _ !! k) as [old|]; [|by left].
  destruct (constraint _ _); [|by left].
  right. exists k. eexists. split; [|done].
  apply drop_snoc_singleton in Hdrop as ->.
  rewrite key_of_path in Hv. by destruct (parse_int id); simplify_eq/=.
Qed.

Lemma execute_insert E b db :
  let T := db !!! table_of E in
  let k := next_id T in
  Forall (λ c, c.1 ∈ inserted E → typed b c) (columns E) →
  execute (INSERT_INTO (table_of E) (inserted E)) (map (prop b) (inserted E)) db =
  if constraint T (persisted E b) && bool_decide (rows T !! k = None)
  then (Rows [render (pk E) k (persisted E b)],
        <[table_of E := Table (<[k := persisted E b]> (rows T)) (k + 1)
                              (constraint T)]> db)
  else (Fault violation, db).
Proof.
  intros T k Hty. subst T k. unfold execute. rewrite schema_of.
  assert (assign (columns E) (inserted E) (map (prop b) (inserted E))
          = Some (map (λ c, (c, prop b c)) (inserted E))) as ->.
  { unfold typed in Hty.
    destruct E; cbn [columns] in Hty; rewrite ?Forall_cons in Hty;
      cbn -[prop coerce] in *; destruct_and!;
      repeat match goal with
        | Hc : _ ∈ _ → coerce _ _ = Some _ |- _ =>
            first [ rewrite Hc by set_solver | clear Hc ]
        end; done. }
  assert (map (λ c, (c.1, default VNull
                            (assoc c.1 (map (λ c, (c, prop b c)) (inserted E)))))
              (columns E)
          = persisted E b) as -> by (by destruct E).
  done.
Qed.

#[local] Instance by_key_transitive : Transitive by_key.
Proof. unfold by_key. intros x y z. lia. Qed.

#[local] Instance by_key_total : Total by_key.
Proof. unfold by_key. intros x y. lia. Qed.

Lemma sorted_keys_strict (l : list (Z * list (string * value))) :
  StronglySorted by_key l → NoDup l.*1 → StronglySorted Z.lt l.*1.
Proof.
  induction 1 as [|x l Hl IH Hx]; cbn; [constructor|].
  rewrite NoDup_cons. intros [Hnin Hnd]. constructor; [by apply IH|].
  rewrite Forall_fmap. rewrite Forall_forall in Hx |- *. intros y Hy. cbn.
  specialize (Hx y Hy). unfold by_key in Hx.
  assert (x.1 ≠ y.1).
  { intros Heq. apply Hnin. rewrite Heq. by apply list_elem_of_fmap_2. }
  lia.
Qed.


(** C3: for a resource with a list route, [GET /api/E] sends the unfiltered
    [SELECT * FROM table ORDER BY key], leaves the database as it is, and
    answers 200 with all the rows of the table, once each, in strictly
    ascending order of identifier; the array is as long as the table has
    rows. *)
Theorem list_returns_rows_in_key_order E ps b db :
  E ≠ country →
  let w := serve (Request GET (mount E) ps b) db in
  let T := db !!! table_of E in
  (calls w).*1 = [(SELECT_ORDER_BY (table_of E) (pk E), [])] ∧ store w = db ∧
  ∃ kfs,
    reply w = Some (200%Z, JsonRows (map (λ kf, render (pk E) kf.1 kf.2) kfs)) ∧
    kfs ≡ₚ map_to_list (rows T) ∧
    StronglySorted Z.lt kfs.*1 ∧
    length (map (λ kf, render (pk E) kf.1 kf.2) kfs) = size (rows T).
Proof.
  intros HE w T. subst w T.
  run_operation E (ListAll).
  run_engine.
  rewrite execute_select_order_by. unfold settled.
  cbn [fst snd calls store reply res sent answered fmap list_fmap].
  do 2 (split; [done|]).
  eexists. split; [reflexivity|]. split; [apply merge_sort_Permutation|]. split.
  - apply sorted_keys_strict; [apply StronglySorted_merge_sort; apply _|].
    rewrite merge_sort_Permutation. apply NoDup_fst_map_to_list.
  - by rewrite length_map, merge_sort_Permutation, length_map_to_list.
Qed.

Lemma list_returns_rows_in_key_order_witness :
  product ≠ country ∧
  reply (serve (incoming GET ["api"; "products"] []) catalog)
  = Some (200%Z, JsonRows
      [ [("product_id", VNum 1); ("product_name", VStr "Widget"); ("price", VNull)];
        [("product_id", VNum 2); ("product_name", VStr "Gadget"); ("price", VNum 12)];
        [("product_id", VNum 5); ("product_name", VStr "Doohickey"); ("price", VNum 3)] ]) ∧
  ∃ kfs, reply (serve (incoming GET ["api"; "products"] []) catalog)
         = Some (200%Z, JsonRows (map (λ kf, render "product_id" kf.1 kf.2) kfs)) ∧
         StronglySorted Z.lt kfs.*1 ∧
         length (map (λ kf, render "product_id" kf.1 kf.2) kfs) = 3.
Proof.
  split; [done|]. split; [by vm_compute|].
  destruct (list_returns_rows_in_key_order product [] (list_to_map []) catalog)
    as (_ & _ & kfs & Hr & _ & Hs & Hl); [done|].
  exists kfs. split; [exact Hr|]. split; [exact Hs|].
  etransitivity; [exact Hl|by vm_compute].
Defined.

(** C5: DELETE on the identifier of an existing row removes that row and
    nothing else, answers 200 with the success message and not the row, and
    a GET of the same identifier afterwards answers 404. *)
Theorem delete_then_get_is_404 E id k fields ps b ps' b' db :
  let T := db !!! table_of E in
  parse_int id = Some k → rows T !! k = Some fields →
  let w := serve (Request DELETE (mount E ++ [id]) ps b) db in
  reply w = Some (200%Z, JsonMessage (deleted E)) ∧
  store w = <[table_of E := Table (delete k (rows T)) (next_id T) (constraint T)]> db ∧
  reply (serve (Request GET (mount E ++ [id]) ps' b') (store w))
  = Some (404%Z, JsonMessage (not_found E)).
Proof.
  intros T Hk Hrow w. subst T w.
  run_operation E (Delete id).
  run_engine.
  rewrite execute_delete_where, Hk. cbn zeta. rewrite Hrow.
  unfold settled. cbn [fst snd store res reply found_or_404 sent].
  do 2 (split; [done|]).
  run_operation E (GetById id).
  run_engine.
  rewrite execute_select_where, Hk, lookup_total_insert_eq. cbn [rows].
  by rewrite lookup_delete_eq.
Qed.

Lemma delete_then_get_is_404_witness :
  parse_int "2" = Some 2%Z ∧
  rows (catalog !!! "product") !! 2%Z
  = Some [("product_name", VStr "Gadget"); ("price", VNum 12)] ∧
  let w := serve (incoming DELETE ["api"; "products"; "2"] []) catalog in
  reply w = Some (200%Z, JsonMessage "Product deleted successfully") ∧
  reply (serve (incoming GET ["api"; "products"; "2"] []) (store w))
  = Some (404%Z, JsonMessage "Product not found").
Proof.
  assert (parse_int "2" = Some 2%Z) as Hk by (by vm_compute).
  assert (rows (catalog !!! table_of product) !! 2%Z
          = Some [("product_name", VStr "Gadget"); ("price", VNum 12)]) as Hrow
    by (by vm_compute).
  do 2 (split; [assumption|]).
  destruct (delete_then_get_is_404 product "2" 2 _ [] (list_to_map [])
              [] (list_to_map []) catalog Hk Hrow) as (Hd & _ & Hg).
  split; [exact Hd|exact Hg].
Defined.




(** A value that is not of its column's type is rejected in the same way:
    text that is no number as a price gives 500 and the row is kept. *)
Lemma put_with_ill_typed_value_is_rejected :
  let w := serve (incoming PUT ["api"; "products"; "2"]
                    [("product_name", VStr "Gizmo"); ("price", VStr "abc")])
                 catalog in
  reply w = Some (500%Z, JsonMessage "Internal Server Error") ∧
  rows ((store w : gmap string table) !!! "product") !! 2%Z
  = Some [("product_name", VStr "Gadget"); ("price", VNum 12)].
Proof. by vm_compute. Qed.

Lemma store_settled sql vs (out : query_result * gmap string table) ok :
  store (settled sql vs out ok) = out.2.
Proof. unfold settled. by destruct out as [[?|?] ?]. Qed.

(** C9: PUT and DELETE on [/api/E/{id}] leave every other table as it was,
    and in [E]'s table every row whose identifier is not the one [id]
    denotes, as well as the identifier sequence and the constraints. *)
Theorem put_delete_touch_one_row E m id ps b db :
  m = PUT ∨ m = DELETE →
  let w := serve (Request m (mount E ++ [id]) ps b) db in
  (∀ t, t ≠ table_of E → (store w : gmap string table) !! t = db !! t) ∧
  (∀ k, parse_int id ≠ Some k →
        rows ((store w : gmap string table) !!! table_of E) !! k = rows (db !!! table_of E) !! k) ∧
  next_id ((store w : gmap string table) !!! table_of E) = next_id (db !!! table_of E) ∧
  constraint ((store w : gmap string table) !!! table_of E) = constraint (db !!! table_of E).
Proof.
  intros Hm w. subst w.
  assert (∀ s' : gmap string table,
    (s' = db ∨ ∃ k rs, parse_int id = Some k ∧
       (∀ k', k' ≠ k → rs !! k' = rows (db !!! table_of E) !! k') ∧
       s' = <[table_of E := Table rs (next_id (db !!! table_of E))
                                (constraint (db !!! table_of E))]> db) →
    (∀ t, t ≠ table_of E → s' !! t = db !! t) ∧
    (∀ k, parse_int id ≠ Some k →
          rows (s' !!! table_of E) !! k = rows (db !!! table_of E) !! k) ∧
    next_id (s' !!! table_of E) = next_id (db !!! table_of E) ∧
    constraint (s' !!! table_of E) = constraint (db !!! table_of E)) as Hframe.
  { intros s' [->|(k & rs & Hk & Hrs & ->)]; [done|].
    split; [intros t Ht; by rewrite lookup_insert_ne|].
    rewrite lookup_total_insert_eq. cbn. split; [|done].
    intros k' Hk'. apply Hrs. congruence. }
  destruct Hm as [-> | ->].
  - run_operation E (Update id).
    rewrite store_settled. cbn [issued fst snd]. run_engine.
    apply Hframe.
    destruct (execute_update_frame E id (map (prop b) (updated E)) db)
      as [Heq|(k & fields & Hk & Heq)]; [by left|right].
    exists k. eexists. split; [done|]. split; [|exact Heq].
    intros k' Hk'. by rewrite lookup_insert_ne.
  - run_operation E (Delete id).
    rewrite store_settled. cbn [issued fst snd]. run_engine.
    apply Hframe. rewrite execute_delete_where.
    destruct (parse_int id) as [k|]; [|by left]. cbn zeta.
    destruct (rows _ !! k); [|by left]. right.
    exists k. eexists. split; [done|]. split; [|done].
    intros k' Hk'. by rewrite lookup_delete_ne.
Qed.

Lemma put_delete_touch_one_row_witness :
  let w := serve (incoming DELETE ["api"; "products"; "2"] []) catalog in
  (store w : gmap string table) !! "country" = catalog !! "country" ∧
  rows ((store w : gmap string table) !!! "product") !! 1%Z = rows (catalog !!! "product") !! 1%Z ∧
  rows ((store w : gmap string table) !!! "product") !! 2%Z = None.
Proof.
  intros w.
  destruct (put_delete_touch_one_row product DELETE "2" [] (list_to_map []) catalog)
    as (Ht & Hk & _); [by right|].
  split; [by apply Ht|]. split; [by apply Hk|]. by vm_compute.
Defined.

(** C1, as the code has it: after a POST that succeeded with 201, the GET of
    the generated identifier answers 200 with the very row the POST
    returned, and that row is the identifier followed by the columns the
    INSERT names, each as the body gives it, with NULL in any other column.
    For countries, item types and sales channels these are all the
    submitted fields; for products only [product_name] is stored and
    [price] is NULL whatever the body said. *)
Theorem post_then_get_returns_created_row E ps b ps' b' db r :
  let T := db !!! table_of E in
  let w := serve (Request POST (mount E) ps b) db in
  Forall (λ c, c.1 ∈ inserted E → typed b c) (columns E) →
  reply w = Some (201%Z, JsonRow (Some r)) →
  r = render (pk E) (next_id T) (persisted E b) ∧
  reply (serve (Request GET (mount E ++ [print_int (next_id T)]) ps' b') (store w))
  = Some (200%Z, JsonRow (Some r)) ∧
  (E ≠ product → persisted E b = submitted E b) ∧
  (E = product →
   persisted E b = [("product_name", prop b "product_name"); ("price", VNull)]).
Proof.
  intros T w Hty. subst T w.
  run_operation E (Create).
  run_engine.
  rewrite execute_insert by done. cbn zeta.
  destruct (constraint _ _ && bool_decide _) eqn:Hok; unfold settled;
    cbn [fst snd store res reply sent]; [|done].
  intros [= <-]. split; [done|].
  run_operation E (GetById (print_int (next_id (db !!! table_of E)))).
  run_engine.
  rewrite execute_select_where, parse_print, lookup_total_insert_eq. cbn [rows].
  rewrite lookup_insert_eq. split; [done|].
  split; [by destruct E|]. by intros ->.
Qed.

Lemma post_then_get_returns_created_row_witness :
  let b : gmap string value :=
    list_to_map [("country_name", VStr "Peru"); ("region_id", VNum 7)] in
  let r := [("country_id", VNum 2); ("country_name", VStr "Peru");
            ("region_id", VNum 7)] in
  let w := serve (Request POST ["api"; "countries"] [] b) catalog in
  reply w = Some (201%Z, JsonRow (Some r)) ∧
  reply (serve (incoming GET ["api"; "countries"; "2"] []) (store w))
  = Some (200%Z, JsonRow (Some r)).
Proof.
  intros b r w.
  assert (Forall (λ c, c.1 ∈ inserted country → typed b c) (columns country))
    as Hty by (repeat constructor; intros _; by vm_compute).
  assert (reply w = Some (201%Z, JsonRow (Some r))) as Hw by (by vm_compute).
  split; [exact Hw|].
  destruct (post_then_get_returns_created_row country [] b [] (list_to_map [])
              catalog r Hty Hw) as (_ & Hg & _).
  exact Hg.
Defined.

(** Claim C1 as stated fails for products: a POST whose body carries a
    price succeeds, yet the row created, and fetched again by its
    identifier, has no price: it is not the submitted fields plus the
    identifier. *)
Lemma post_product_drops_price :
  let b : gmap string value :=
    list_to_map [("product_name", VStr "Widget"); ("price", VNum 5)] in
  let stored := [("product_id", VNum 6); ("product_name", VStr "Widget");
                 ("price", VNull)] in
  let w := serve (Request POST ["api"; "products"] [] b) catalog in
  submitted product b = [("product_name", VStr "Widget"); ("price", VNum 5)] ∧
  reply w = Some (201%Z, JsonRow (Some stored)) ∧
  reply (serve (incoming GET ["api"; "products"; "6"] []) (store w))
  = Some (200%Z, JsonRow (Some stored)) ∧
  stored ≠ render "product_id" 6 (submitted product b).
Proof. by vm_compute. Qed.

(** On this engine an identifier that denotes no row of [E]'s table gets
    404 from GET and DELETE, and from PUT when the body is typed. *)
Lemma absent_identifier_is_404 E m id k ps b db :
  m ≠ POST → (m = PUT → Forall (typed b) (columns E)) →
  parse_int id = Some k → rows (db !!! table_of E) !! k = None →
  let w := serve (Request m (mount E ++ [id]) ps b) db in
  reply w = Some (404%Z, JsonMessage (not_found E)) ∧ store w = db.
Proof.
  intros Hm Hty Hk Hrow w. subst w. destruct m; [|by destruct Hm| |].
  - run_operation E (GetById id). run_engine.
    by rewrite execute_select_where, Hk, Hrow.
  - run_operation E (Update id). run_engine.
    by rewrite (execute_update E id k), Hrow by auto.
  - run_operation E (Delete id). run_engine.
    rewrite execute_delete_where, Hk. cbn zeta. by rewrite Hrow.
Qed.

(** The product [POST] never reads [price]: with any database behind the
    pool, two bodies that differ only there are served alike. *)
Lemma post_product_never_reads_price `{Pool} ps (b : gmap string value) v s :
  serve (Request POST ["api"; "products"] ps (<["price" := v]> b)) s
  = serve (Request POST ["api"; "products"] ps b) s.
Proof.
  change (serve (request_of product Create ps (<["price" := v]> b)) s
          = serve (request_of product Create ps b) s).
  rewrite !serve_operation by exact I.
  cbn [issued inserted map]. unfold prop. by rewrite lookup_insert_ne.
Qed.

Lemma not_found_when_no_row_witness :
  GET ≠ POST ∧
  let w := serve (incoming GET ["api"; "products"; "9"] []) catalog in
  calls w = [(SELECT_WHERE "product" "product_id", [VStr "9"], Rows [])] ∧
  reply w = Some (404%Z, JsonMessage "Product not found").
Proof.
  split; [done|]. intros w.
  assert (calls w = [(SELECT_WHERE "product" "product_id", [VStr "9"], Rows [])])
    as Hc by (by vm_compute).
  split; [exact Hc|].
  destruct (not_found_when_no_row (H:=pool) product GET "9" [] (list_to_map []) catalog)
    as (sql & vs & r & Hw & _ & _ & Hr); [done|].
  change (calls w = [(sql, vs ++ [VStr "9"], r)]) in Hw.
  rewrite Hc in Hw. injection Hw as _ _ <-. exact Hr.
Defined.

Lemma fault_gives_generic_500_witness :
  let req := incoming PUT ["api"; "products"; "2"] [("price", VNum 7)] in
  let sql := UPDATE_SET_WHERE "product" ["product_name"; "price"] "product_id" in
  (sql, [VNull; VNum 7; VStr "2"], Fault violation) ∈ calls (serve req catalog) ∧
  reply (serve req catalog) = Some (500%Z, JsonMessage "Internal Server Error") ∧
  console (serve req catalog) = [violation].
Proof.
  intros req sql.
  assert ((sql, [VNull; VNum 7; VStr "2"], Fault violation)
          ∈ calls (serve req catalog)) as Hin.
  { assert (calls (serve req catalog)
            = [(sql, [VNull; VNum 7; VStr "2"], Fault violation)]) as ->
      by (by vm_compute).
    left. }
  split; [exact Hin|].
  exact (fault_gives_generic_500 (H:=pool) req catalog sql _ violation Hin).
Defined.

Lemma one_response_per_request_witness :
  let req := incoming POST ["api"; "item-types"] [("item_type_name", VStr "Fruit")] in
  is_Some (dispatch mounts req) ∧
  sent (res (serve req catalog))
  = [(201%Z, JsonRow (Some [("item_type_id", VNum 4);
                            ("item_type_name", VStr "Fruit")]))].
Proof.
  intros req.
  assert (is_Some (dispatch mounts req)) as Hd by (eexists; reflexivity).
  split; [exact Hd|].
  destruct (one_response_per_request (H:=pool) req catalog Hd) as (code & p & Hs & _).
  assert (sent (res (serve req catalog))
          = [(201%Z, JsonRow (Some [("item_type_id", VNum 4);
                                    ("item_type_name", VStr "Fruit")]))]) as Hv
    by (by vm_compute).
  cbv zeta in Hs. rewrite Hs in Hv |- *. exact Hv.
Defined.
End Engine.

(** * Further properties of the routing and of the handlers *)
Section Coverage.
Context `{Pool}.

(** X4: a request that reaches a handler makes exactly one call to
    [db.query], on the database as the request found it, and leaves the database as that
    one call left it. *)
Theorem one_call_per_handled_request req s :
  is_Some (dispatch mounts req) →
  let w := serve req s in
  ∃ sql vs, calls w = [(sql, vs, (query sql vs s).1)] ∧
            store w = (query sql vs s).2.
Proof.
  intros Hd w. subst w.
  destruct (routed_inv req Hd) as (E & op & HE & ->).
  rewrite serve_operation by done.
  exists (issued E op (body req)).1, (issued E op (body req)).2.
  unfold settled. by destruct (query _ _ _) as [[?|?] ?].
Qed.

(** X5: the method decides the kind of statement: a GET only ever sends a
    SELECT, a POST an INSERT, a PUT an UPDATE and a DELETE a DELETE. *)
Theorem verb_decides_statement req s c :
  c ∈ calls (serve req s) → verb_of c.1.1 = verb req.
Proof.
  intros Hin. destruct (dispatch mounts req) as [hr|] eqn:Hd.
  - destruct (routed_inv req) as (E & op & HE & Hreq); [by eexists|].
    rewrite Hreq in Hin |- *. rewrite serve_operation in Hin by done.
    unfold settled in Hin.
    destruct (query _ _ _) as [[?|?] ?]; cbn [fst snd calls] in Hin;
      apply list_elem_of_singleton in Hin; subst c; by destruct op.
  - destruct (serve_unrouted req s Hd) as (Hc & _). rewrite Hc in Hin.
    by apply not_elem_of_nil in Hin.
Qed.

(** A request below the mount point of [E] that reaches a handler asks for
    one of [E]'s registered operations. *)
Lemma mounted_operation E m rest ps b :
  is_Some (dispatch mounts (Request m (mount E ++ rest) ps b)) →
  ∃ op, registered E op ∧
        Request m (mount E ++ rest) ps b = request_of E op ps b.
Proof.
  intros [hr Hd]. rewrite dispatch_mount in Hd.
  destruct rest as [|id [|x rest]]; destruct E, m;
    first
      [ exists ListAll; split; [exact I|reflexivity]
      | exists Create; split; [exact I|reflexivity]
      | exists (GetById id); split; [exact I|reflexivity]
      | exists (Update id); split; [exact I|reflexivity]
      | exists (Delete id); split; [exact I|reflexivity]
      | exfalso;
        match type of Hd with
        | ?l = Some _ =>
            assert (l = None) as Hn by reflexivity; rewrite Hn in Hd;
            discriminate Hd
        end ].
Qed.

(** X6: each router keeps to its own table: whatever is asked below the mount
    point of [E], a statement sent names [E]'s table and, where it selects or
    orders, [E]'s primary key. *)
Theorem router_names_own_table E m rest ps b s c :
  c ∈ calls (serve (Request m (mount E ++ rest) ps b) s) →
  table_named c.1.1 = table_of E ∧
  (key_named c.1.1 = None ∨ key_named c.1.1 = Some (pk E)).
Proof.
  intros Hin.
  destruct (dispatch mounts (Request m (mount E ++ rest) ps b)) as [hr|] eqn:Hd.
  - destruct (mounted_operation E m rest ps b) as (op & HE & Hreq); [by eexists|].
    rewrite Hreq in Hin. rewrite serve_operation in Hin by done.
    unfold settled in Hin.
    destruct (query _ _ _) as [[?|?] ?]; cbn [fst snd calls] in Hin;
      apply list_elem_of_singleton in Hin; subst c; destruct op; cbn; auto.
  - destruct (serve_unrouted _ s Hd) as (Hc & _). rewrite Hc in Hin.
    by apply not_elem_of_nil in Hin.
Qed.

(** X7: the list handlers neither sort nor filter: the array sent is the rows
    of the result, in the order the database gave them, with status 200. *)
Theorem list_relays_database_rows E ps b s rs s' :
  E ≠ country →
  query (SELECT_ORDER_BY (table_of E) (pk E)) [] s = (Rows rs, s') →
  let w := serve (Request GET (mount E) ps b) s in
  reply w = Some (200%Z, JsonRows rs) ∧ store w = s' ∧ console w = [].
Proof.
  intros HE Hq w. subst w. run_operation E ListAll. by rewrite Hq.
Qed.

(** X8: when the statement of a get, an update or a delete by identifier
    returns rows, GET and PUT answer 200 with the first of them and nothing
    of the others, and DELETE answers 200 with its fixed message and nothing
    of the rows. *)
Theorem by_id_success_reply E id ps b s sql vs r rs :
  let get := serve (Request GET (mount E ++ [id]) ps b) s in
  let put := serve (Request PUT (mount E ++ [id]) ps b) s in
  let del := serve (Request DELETE (mount E ++ [id]) ps b) s in
  (calls get = [(sql, vs, Rows (r :: rs))] →
   reply get = Some (200%Z, JsonRow (Some r))) ∧
  (calls put = [(sql, vs, Rows (r :: rs))] →
   reply put = Some (200%Z, JsonRow (Some r))) ∧
  (calls del = [(sql, vs, Rows (r :: rs))] →
   reply del = Some (200%Z, JsonMessage (deleted E))).
Proof.
  intros get put del. subst get put del. repeat split.
  - run_operation E (GetById id). settle; intros Hc; by simplify_eq.
  - run_operation E (Update id). settle; intros Hc; by simplify_eq.
  - run_operation E (Delete id). settle; intros Hc; by simplify_eq.
Qed.

(** X9: a POST has no not-found branch: whatever rows the INSERT returns, the
    answer is 201 with the first of them, and with no body when there is
    none. *)
Theorem create_answers_201 E ps b s rs s' :
  query (INSERT_INTO (table_of E) (inserted E)) (map (prop b) (inserted E)) s
  = (Rows rs, s') →
  let w := serve (Request POST (mount E) ps b) s in
  reply w = Some (201%Z, JsonRow (rs !! 0)) ∧ store w = s'.
Proof.
  intros Hq w. subst w. run_operation E Create. by rewrite Hq.
Qed.

(** X10: a handler reads from the body only the properties its statement
    binds: two requests for the same operation whose bodies agree on them are
    served alike, whatever else the bodies hold.  In particular nothing in a
    body can set or change an identifier, and the body of a GET or a DELETE
    is not read at all. *)
Theorem unread_body_properties_ignored E op ps ps' (b b' : gmap string value) s :
  registered E op →
  (∀ c, c ∈ reads E op → b !! c = b' !! c) →
  serve (request_of E op ps b) s = serve (request_of E op ps' b') s.
Proof.
  intros HE Hb. rewrite !serve_operation by done.
  assert (issued E op b = issued E op b') as ->; [|done].
  destruct op; cbn [issued reads] in *; try done.
  - f_equal. apply map_ext_in. intros c Hc. unfold prop.
    by rewrite Hb by (by apply list_elem_of_In).
  - do 2 f_equal. apply map_ext_in. intros c Hc. unfold prop.
    by rewrite Hb by (by apply list_elem_of_In).
Qed.

End Coverage.

(** * Further properties over the relational engine *)
Section Composition.
Import Relational.
#[local] Existing Instance pool.
Implicit Types db : gmap string table.

(** A statement that faults or returns no row left the database as it was. *)
Lemma execute_without_rows sql vs db :
  (∀ r rs, (execute sql vs db).1 ≠ Rows (r :: rs)) → (execute sql vs db).2 = db.
Proof.
  unfold execute. intros Hno.
  destruct sql; repeat case_match; cbn [fst snd] in *; try done;
    by edestruct Hno.
Qed.

Lemma execute_select_reads sql vs db :
  verb_of sql = GET → (execute sql vs db).2 = db.
Proof.
  unfold execute. destruct sql; try done; intros _; by repeat case_match.
Qed.

(** X12: on this engine a GET, whatever its path, leaves the database as it
    was. *)
Theorem get_never_changes_database req db :
  verb req = GET → store (serve req db) = db.
Proof.
  intros Hv. destruct (dispatch mounts req) as [hr|] eqn:Hd.
  - destruct (routed_inv req) as (E & op & HE & Hreq); [by eexists|].
    rewrite Hreq in Hv |- *. rewrite serve_operation by done.
    rewrite store_settled. run_engine. apply execute_select_reads.
    by destruct op.
  - by destruct (serve_unrouted (H:=pool) req db Hd) as (_ & -> & _).
Qed.

(** X13: on this engine only an answer with status 200 or 201 can go with a
    changed database: after a 404 or a 500 the database is as it was. *)
Theorem failed_request_changes_nothing req db code p :
  reply (serve req db) = Some (code, p) →
  code ≠ 200%Z → code ≠ 201%Z →
  store (serve req db) = db.
Proof.
  intros Hr H200 H201. destruct (dispatch mounts req) as [hr|] eqn:Hd.
  - destruct (routed_inv req) as (E & op & HE & Hreq); [by eexists|].
    rewrite Hreq in Hr |- *. rewrite serve_operation in Hr |- * by done.
    rewrite store_settled. unfold settled in Hr.
    change (@query pool) with execute in *.
    change (@DB pool) with (gmap string table) in *.
    apply execute_without_rows. intros r rs Hrows. rewrite Hrows in Hr.
    destruct op; cbn [reply res sent answered found_or_404] in Hr;
      injection Hr as <- _; done.
  - by destruct (serve_unrouted (H:=pool) req db Hd) as (_ & -> & _).
Qed.

(** X14: on this engine an accepted PUT and a GET of the same identifier right
    after it answer alike: the GET returns the row the PUT returned. *)
Theorem put_then_get_returns_updated_row E id k old ps b ps' b' db :
  let T := db !!! table_of E in
  parse_int id = Some k → rows T !! k = Some old →
  Forall (typed b) (columns E) →
  constraint T (submitted E b) = true →
  let w := serve (Request PUT (mount E ++ [id]) ps b) db in
  reply w = Some (200%Z, JsonRow (Some (render (pk E) k (submitted E b)))) ∧
  reply (serve (Request GET (mount E ++ [id]) ps' b') (store w)) = reply w.
Proof.
  intros T Hk Hold Hty Hok w. subst T w.
  run_operation E (Update id). run_engine.
  rewrite (execute_update E id k) by done. rewrite Hold, Hok.
  unfold settled. cbn [fst snd store res reply found_or_404 sent].
  split; [done|].
  run_operation E (GetById id). run_engine.
  rewrite execute_select_where, Hk, lookup_total_insert_eq. cbn [rows].
  by rewrite lookup_insert_eq.
Qed.

(** X15: on this engine, after a DELETE of an identifier, whether or not it
    found a row, a second DELETE of the same identifier answers 404 and
    changes nothing more. *)
Theorem second_delete_is_404 E id k ps b ps' b' db :
  parse_int id = Some k →
  let w1 := serve (Request DELETE (mount E ++ [id]) ps b) db in
  let w2 := serve (Request DELETE (mount E ++ [id]) ps' b') (store w1) in
  reply w2 = Some (404%Z, JsonMessage (not_found E)) ∧ store w2 = store w1.
Proof.
  intros Hk w1 w2. subst w1 w2.
  assert (∀ db, rows (db !!! table_of E) !! k = None →
            let w := serve (Request DELETE (mount E ++ [id]) ps' b') db in
            reply w = Some (404%Z, JsonMessage (not_found E)) ∧ store w = db)
    as Hgone.
  { clear db. intros db Hrow. cbn zeta.
    run_operation E (Delete id). run_engine.
    rewrite execute_delete_where, Hk. cbn zeta. by rewrite Hrow. }
  apply Hgone.
  run_operation E (Delete id). run_engine.
  rewrite execute_delete_where, Hk. cbn zeta.
  destruct (rows (db !!! table_of E) !! k) eqn:Hrow; unfold settled;
    cbn [fst snd store]; [|done].
  rewrite lookup_total_insert_eq. cbn [rows]. apply lookup_delete_eq.
Qed.

Lemma execute_insert_cases E vs db :
  let T := db !!! table_of E in
  let k := next_id T in
  let out := execute (INSERT_INTO (table_of E) (inserted E)) vs db in
  (∃ e, out = (Fault e, db)) ∨
  (rows T !! k = None ∧
   ∃ fields, out = (Rows [render (pk E) k fields],
                    <[table_of E := Table (<[k := fields]> (rows T)) (k + 1)
                                          (constraint T)]> db)).
Proof.
  intros T k out. subst T k out. unfold execute. rewrite schema_of.
  destruct (assign _ _ _); [|left; by eexists].
  destruct (constraint _ _ && bool_decide _) eqn:Hok; [|left; by eexists].
  apply andb_true_iff in Hok as [_ Hfree]. apply bool_decide_eq_true in Hfree.
  right. split; [done|]. by eexists.
Qed.

(** X16: on this engine a POST answered with 201 added exactly one row to [E]'s
    table, under an identifier no row had, and returned it; every row that
    was there is untouched, the table is one row larger, and the other
    tables are as they were. *)
Theorem post_adds_one_fresh_row E ps b db p :
  let w := serve (Request POST (mount E) ps b) db in
  let T := db !!! table_of E in
  let T' := (store w : gmap string table) !!! table_of E in
  reply w = Some (201%Z, p) →
  rows T !! next_id T = None ∧
  (∃ fields, rows T' = <[next_id T := fields]> (rows T) ∧
             p = JsonRow (Some (render (pk E) (next_id T) fields))) ∧
  (∀ k, k ≠ next_id T → rows T' !! k = rows T !! k) ∧
  size (rows T') = S (size (rows T)) ∧
  next_id T' = (next_id T + 1)%Z ∧
  ∀ t, t ≠ table_of E → (store w : gmap string table) !! t = db !! t.
Proof.
  intros w T T'. subst w T T'.
  run_operation E Create. run_engine.
  destruct (execute_insert_cases E (map (prop b) (inserted E)) db)
    as [[e Hex]|(Hfree & fields & Hex)]; cbn zeta in Hex; rewrite Hex;
    unfold settled; cbn [fst snd store res reply sent]; [done|].
  intros [= <-]. rewrite lookup_total_insert_eq. cbn [rows next_id].
  split; [done|]. split; [by eexists|]. split; [|split; [|split]].
  - intros k Hk. by rewrite lookup_insert_ne.
  - by apply map_size_insert_None.
  - done.
  - intros t Ht. by rewrite lookup_insert_ne.
Qed.

Lemma execute_keeps_other_tables sql vs db t :
  t ≠ table_named sql → (execute sql vs db).2 !! t = db !! t.
Proof.
  unfold execute. intros Ht.
  destruct sql; cbn [table_named] in Ht; repeat case_match; cbn [snd];
    try done; by rewrite lookup_insert_ne.
Qed.

(** X17: on this engine no request below the mount point of [E], whatever its
    method, path and body, changes a table other than [E]'s. *)
Theorem request_keeps_other_tables E m rest ps b db t :
  t ≠ table_of E →
  (store (serve (Request m (mount E ++ rest) ps b) db) : gmap string table) !! t
  = db !! t.
Proof.
  intros Ht.
  destruct (dispatch mounts (Request m (mount E ++ rest) ps b)) as [hr|] eqn:Hd.
  - destruct (mounted_operation (H:=pool) E m rest ps b) as (op & HE & ->);
      [by eexists|].
    rewrite serve_operation by done. rewrite store_settled. run_engine.
    apply execute_keeps_other_tables. by destruct op.
  - by destruct (serve_unrouted (H:=pool) _ db Hd) as (_ & -> & _).
Qed.

(** What a PUT with a typed body does on this engine, case by case. *)
Lemma serve_put_cases E id k ps b db :
  let T := db !!! table_of E in
  let w := serve (Request PUT (mount E ++ [id]) ps b) db in
  parse_int id = Some k →
  Forall (typed b) (columns E) →
  (reply w, (store w : gmap string table)) =
  match rows T !! k with
  | Some _ =>
      if constraint T (submitted E b)
      then (Some (200%Z, JsonRow (Some (render (pk E) k (submitted E b)))),
            <[table_of E := Table (<[k := submitted E b]> (rows T)) (next_id T)
                                  (constraint T)]> db)
      else (Some (500%Z, JsonMessage "Internal Server Error"), db)
  | None => (Some (404%Z, JsonMessage (not_found E)), db)
  end.
Proof.
  intros T w Hk Hty. subst T w.
  run_operation E (Update id). run_engine.
  rewrite (execute_update E id k) by done.
  destruct (rows _ !! k); [destruct (constraint _ _)|]; reflexivity.
Qed.

(** X18: on this engine a PUT repeated with the same typed body is answered as
    the first time and leaves the database as the first one left it. *)
Theorem put_twice_is_put_once E id k ps b ps' db :
  parse_int id = Some k →
  Forall (typed b) (columns E) →
  let w1 := serve (Request PUT (mount E ++ [id]) ps b) db in
  let w2 := serve (Request PUT (mount E ++ [id]) ps' b) (store w1) in
  reply w2 = reply w1 ∧ store w2 = store w1.
Proof.
  intros Hk Hty w1 w2.
  pose proof (serve_put_cases E id k ps b db Hk Hty) as H1.
  pose proof (serve_put_cases E id k ps' b (store w1) Hk Hty) as H2.
  cbn zeta in H1, H2. fold w1 in H1. fold w2 in H2.
  destruct (rows (db !!! table_of E) !! k) as [old|] eqn:Hrow;
    [destruct (constraint (db !!! table_of E) (submitted E b)) eqn:Hok|];
    injection H1 as Hr1 Hs1; rewrite Hs1 in H2.
  - rewrite lookup_total_insert_eq in H2. cbn [rows next_id constraint] in H2.
    rewrite lookup_insert_eq, Hok, !insert_insert_eq in H2.
    injection H2 as Hr2 Hs2. split; congruence.
  - rewrite Hrow, Hok in H2. injection H2 as Hr2 Hs2. split; congruence.
  - rewrite Hrow in H2. injection H2 as Hr2 Hs2. split; congruence.
Qed.

Lemma one_call_per_handled_request_witness :
  let req := incoming GET ["api"; "item-types"; "3"] [] in
  is_Some (dispatch mounts req) ∧
  ∃ sql vs, calls (serve req catalog) = [(sql, vs, (execute sql vs catalog).1)] ∧
            store (serve req catalog) = (execute sql vs catalog).2.
Proof.
  intros req.
  assert (is_Some (dispatch mounts req)) as Hd by (eexists; reflexivity).
  split; [exact Hd|].
  exact (one_call_per_handled_request (H:=pool) req catalog Hd).
Defined.

Lemma verb_decides_statement_witness :
  let req := incoming GET ["api"; "item-types"; "3"] [] in
  let c := (SELECT_WHERE "item_type" "item_type_id", [VStr "3"],
            Rows [[("item_type_id", VNum 3); ("item_type_name", VStr "Snacks")]]) in
  c ∈ calls (serve req catalog) ∧ verb_of c.1.1 = GET.
Proof.
  intros req c.
  assert (c ∈ calls (serve req catalog)) as Hin.
  { assert (calls (serve req catalog) = [c]) as -> by (by vm_compute). left. }
  split; [exact Hin|].
  exact (verb_decides_statement (H:=pool) req catalog c Hin).
Defined.

Lemma router_names_own_table_witness :
  let c := (DELETE_WHERE "country" "country_id", [VStr "1"],
            Rows [[("country_id", VNum 1); ("country_name", VStr "Kenya");
                   ("region_id", VNum 4)]]) in
  c ∈ calls (serve (Request DELETE (mount country ++ ["1"]) [] ∅) catalog) ∧
  table_named c.1.1 = "country".
Proof.
  intros c.
  assert (c ∈ calls (serve (Request DELETE (mount country ++ ["1"]) [] ∅) catalog))
    as Hin.
  { assert (calls (serve (Request DELETE (mount country ++ ["1"]) [] ∅) catalog)
            = [c]) as -> by (by vm_compute).
    left. }
  split; [exact Hin|].
  exact (proj1 (router_names_own_table (H:=pool) country DELETE ["1"] [] ∅
                  catalog c Hin)).
Defined.

Lemma list_relays_database_rows_witness :
  product ≠ country ∧
  @query echo (SELECT_ORDER_BY "product" "product_id") [] () = (Rows two_rows, ()) ∧
  reply (serve (H:=echo) (incoming GET ["api"; "products"] []) ())
  = Some (200%Z, JsonRows two_rows).
Proof.
  assert (product ≠ country) as HE by done.
  assert (@query echo (SELECT_ORDER_BY (table_of product) (pk product)) [] ()
          = (Rows two_rows, ())) as Hq by reflexivity.
  split; [exact HE|]. split; [exact Hq|].
  exact (proj1 (list_relays_database_rows (H:=echo) product [] (list_to_map [])
                  () two_rows () HE Hq)).
Defined.

Lemma by_id_success_reply_witness :
  let w := serve (H:=echo) (Request GET (mount product ++ ["9"]) [] ∅) () in
  calls w = [(SELECT_WHERE "product" "product_id", [VStr "9"], Rows two_rows)] ∧
  reply w = Some (200%Z, JsonRow (Some [("product_id", VNum 9);
                                        ("product_name", VStr "Zither");
                                        ("price", VNull)])).
Proof.
  intros w.
  assert (calls w = [(SELECT_WHERE "product" "product_id", [VStr "9"],
                      Rows two_rows)]) as Hc by reflexivity.
  split; [exact Hc|].
  exact (proj1 (by_id_success_reply (H:=echo) product "9" [] ∅ () _ _ _ _) Hc).
Defined.

Lemma create_answers_201_witness :
  let b : gmap string value := list_to_map [("channel_name", VStr "Online")] in
  @query mute (INSERT_INTO "sales_channel" ["channel_name"]) [VStr "Online"] ()
  = (Rows [], ()) ∧
  reply (serve (H:=mute) (Request POST ["api"; "sales-channels"] [] b) ())
  = Some (201%Z, JsonRow None).
Proof.
  intros b.
  assert (@query mute (INSERT_INTO (table_of sales_channel) (inserted sales_channel))
            (map (prop b) (inserted sales_channel)) () = (Rows [], ())) as Hq
    by reflexivity.
  split; [exact Hq|].
  exact (proj1 (create_answers_201 (H:=mute) sales_channel [] b () [] () Hq)).
Defined.

Lemma unread_body_properties_ignored_witness :
  let b : gmap string value :=
    list_to_map [("product_name", VStr "Gizmo"); ("price", VNum 1)] in
  let b' : gmap string value := <["product_id" := VNum 99]> b in
  registered product (Update "2") ∧
  serve (Request PUT ["api"; "products"; "2"] [] b) catalog
  = serve (Request PUT ["api"; "products"; "2"] [] b') catalog.
Proof.
  intros b b'.
  assert (registered product (Update "2")) as HE by exact I.
  split; [exact HE|].
  apply (unread_body_properties_ignored (H:=pool) product (Update "2") [] [] b b'
           catalog HE).
  intros c Hc. cbn [reads updated] in Hc.
  apply elem_of_cons in Hc as [->|Hc]; [by vm_compute|].
  apply elem_of_cons in Hc as [->|Hc]; [by vm_compute|].
  by apply not_elem_of_nil in Hc.
Defined.

Lemma get_never_changes_database_witness :
  let req := incoming GET ["api"; "products"] [] in
  verb req = GET ∧ store (serve req catalog) = catalog.
Proof.
  intros req. split; [reflexivity|].
  exact (get_never_changes_database req catalog eq_refl).
Defined.

Lemma failed_request_changes_nothing_witness :
  let req := incoming PUT ["api"; "products"; "2"] [("price", VNum 7)] in
  reply (serve req catalog) = Some (500%Z, JsonMessage "Internal Server Error") ∧
  store (serve req catalog) = catalog.
Proof.
  intros req.
  assert (reply (serve req catalog)
          = Some (500%Z, JsonMessage "Internal Server Error")) as Hr
    by (by vm_compute).
  split; [exact Hr|].
  apply (failed_request_changes_nothing req catalog _ _ Hr); lia.
Defined.

Lemma put_then_get_returns_updated_row_witness :
  let b : gmap string value :=
    list_to_map [("country_name", VStr "Kenia"); ("region_id", VNum 4)] in
  let w := serve (Request PUT ["api"; "countries"; "1"] [] b) catalog in
  reply w = Some (200%Z, JsonRow (Some [("country_id", VNum 1);
                                        ("country_name", VStr "Kenia");
                                        ("region_id", VNum 4)])) ∧
  reply (serve (incoming GET ["api"; "countries"; "1"] []) (store w)) = reply w.
Proof.
  intros b w.
  assert (parse_int "1" = Some 1%Z) as Hk by (by vm_compute).
  assert (rows (catalog !!! table_of country) !! 1%Z
          = Some [("country_name", VStr "Kenya"); ("region_id", VNum 4)]) as Hrow
    by (by vm_compute).
  assert (Forall (typed b) (columns country)) as Hty
    by (repeat constructor; by vm_compute).
  assert (constraint (catalog !!! table_of country) (submitted country b) = true)
    as Hok by (by vm_compute).
  exact (put_then_get_returns_updated_row country "1" 1 _ [] b [] (list_to_map [])
           catalog Hk Hrow Hty Hok).
Defined.

Lemma second_delete_is_404_witness :
  let w1 := serve (incoming DELETE ["api"; "item-types"; "3"] []) catalog in
  let w2 := serve (incoming DELETE ["api"; "item-types"; "3"] []) (store w1) in
  parse_int "3" = Some 3%Z ∧
  reply w1 = Some (200%Z, JsonMessage "Item type deleted successfully") ∧
  reply w2 = Some (404%Z, JsonMessage "Item type not found") ∧
  store w2 = store w1.
Proof.
  intros w1 w2.
  assert (parse_int "3" = Some 3%Z) as Hk by (by vm_compute).
  split; [exact Hk|]. split; [by vm_compute|].
  exact (second_delete_is_404 item_type "3" 3 [] (list_to_map []) []
           (list_to_map []) catalog Hk).
Defined.

Lemma post_adds_one_fresh_row_witness :
  let b : gmap string value := list_to_map [("item_type_name", VStr "Fruit")] in
  let w := serve (Request POST ["api"; "item-types"] [] b) catalog in
  let p := JsonRow (Some [("item_type_id", VNum 4); ("item_type_name", VStr "Fruit")]) in
  reply w = Some (201%Z, p) ∧
  rows (catalog !!! "item_type") !! 4%Z = None ∧
  size (rows ((store w : gmap string table) !!! "item_type")) = 2.
Proof.
  intros b w p.
  assert (reply w = Some (201%Z, p)) as Hr by (by vm_compute).
  split; [exact Hr|].
  destruct (post_adds_one_fresh_row item_type [] b catalog p Hr)
    as (Hfree & _ & _ & Hsize & _).
  split; [exact Hfree|]. etransitivity; [exact Hsize|by vm_compute].
Defined.

Lemma request_keeps_other_tables_witness :
  "country" ≠ table_of product ∧
  (store (serve (incoming POST ["api"; "products"]
                   [("product_name", VStr "Sprocket")]) catalog)
     : gmap string table) !! "country"
  = catalog !! "country".
Proof.
  assert ("country" ≠ table_of product) as Ht by done.
  split; [exact Ht|].
  exact (request_keeps_other_tables product POST [] []
           (list_to_map [("product_name", VStr "Sprocket")]) catalog "country" Ht).
Defined.

Lemma put_twice_is_put_once_witness :
  let b : gmap string value :=
    list_to_map [("product_name", VStr "Gizmo"); ("price", VNum 8)] in
  let w1 := serve (Request PUT ["api"; "products"; "5"] [] b) catalog in
  let w2 := serve (Request PUT ["api"; "products"; "5"] [] b) (store w1) in
  reply w1 = Some (200%Z, JsonRow (Some [("product_id", VNum 5);
                                         ("product_name", VStr "Gizmo");
                                         ("price", VNum 8)])) ∧
  reply w2 = reply w1 ∧ store w2 = store w1.
Proof.
  intros b w1 w2.
  assert (parse_int "5" = Some 5%Z) as Hk by (by vm_compute).
  assert (Forall (typed b) (columns product)) as Hty
    by (repeat constructor; by vm_compute).
  split; [by vm_compute|].
  exact (put_twice_is_put_once product "5" 5 [] b [] catalog Hk Hty).
Defined.
End Composition.
